(** * Internet banking back office: authentication and authorization core

    A shallow embedding of the request handlers of
    [api/controllers/auth.controller.js] and
    [api/controllers/admin.controller.js], and of the middleware chain of
    [api/routes/staff.routes.js], together with the properties of the
    access gate, the registration validations, the login flows and the
    staff-management endpoints.

    JavaScript strings are modelled as [string], a sequence of 8-bit code
    units; a request field that is [undefined] is [None]. *)

From Stdlib Require Import List String Ascii ZArith Bool Arith Lia Btauto.
Import ListNotations.

Local Open Scope string_scope.
Local Open Scope bool_scope.

(** ** JavaScript values and string primitives *)

Module Js.

(** The values that reach a model attribute in these handlers: a string,
    [undefined], or an object or function reached by a property lookup. *)
Inductive value :=
| VUndefined
| VString (s : string)
| VObject (name : string).

Definition value_eqb (a b : value) : bool :=
  match a, b with
  | VUndefined, VUndefined => true
  | VString s, VString t => String.eqb s t
  | VObject s, VObject t => String.eqb s t
  | _, _ => false
  end.

(** ToBoolean: [undefined] and the empty string are falsy, every object
    and every other string is truthy. *)
Definition truthy (v : value) : bool :=
  match v with
  | VUndefined => false
  | VString s => negb (String.eqb s "")
  | VObject _ => true
  end.

(** ToBoolean of a request field that is a string or [undefined]. *)
Definition truthy_field (f : option string) : bool :=
  match f with
  | None => false
  | Some s => negb (String.eqb s "")
  end.

(** ToString of such a field, as [RegExp.prototype.exec] applies it. *)
Definition to_string (f : option string) : string :=
  match f with
  | None => "undefined"
  | Some s => s
  end.

(** [s.startsWith(p)] *)
Definition startsWith (p s : string) : bool := String.prefix p s.

(** [s.split(sep)] for a one-character separator. *)
Fixpoint split_aux (sep : ascii) (cur : string) (s : string) : list string :=
  match s with
  | EmptyString => [cur]
  | String c rest =>
      if Ascii.eqb c sep then cur :: split_aux sep "" rest
      else split_aux sep (cur ++ String c "") rest
  end.

Definition split (sep : ascii) (s : string) : list string :=
  split_aux sep "" s.

(** [s.trim()] and [s.toLowerCase()] on 8-bit code units: the white space
    and line terminators below 256, and the letters of Latin-1. *)
Definition is_space (c : ascii) : bool :=
  let n := nat_of_ascii c in
  Nat.eqb n 32 || (Nat.leb 9 n && Nat.leb n 13) || Nat.eqb n 160.

Definition lower_char (c : ascii) : ascii :=
  let n := nat_of_ascii c in
  if (Nat.leb 65 n && Nat.leb n 90)
     || (Nat.leb 192 n && Nat.leb n 222 && negb (Nat.eqb n 215))
  then ascii_of_nat (n + 32) else c.

Fixpoint toLowerCase (s : string) : string :=
  match s with
  | EmptyString => EmptyString
  | String c rest => String (lower_char c) (toLowerCase rest)
  end.

Fixpoint trimStart (s : string) : string :=
  match s with
  | String c rest => if is_space c then trimStart rest else s
  | EmptyString => EmptyString
  end.

Fixpoint rev_string (acc s : string) : string :=
  match s with
  | EmptyString => acc
  | String c rest => rev_string (String c acc) rest
  end.

Definition trim (s : string) : string :=
  rev_string "" (trimStart (rev_string "" (trimStart s))).

End Js.

(** ** Regular expressions

    The fragment of JavaScript regular expressions that the registration
    handler uses: anchors, character classes, bounded and unbounded
    repetition of a class, positive lookahead, sequence and alternation.
    Matching is by continuation over every way to match, so [exec] answers
    whether [RegExp.prototype.exec] returns a match object (the handler
    only tests the result for truthiness; each regex literal is evaluated
    afresh per request, so [lastIndex] is 0). *)

Module Regex.

Definition cls := ascii -> bool.

Inductive re :=
| Eps
| Bol                                        (* ^ *)
| Eol                                        (* $ *)
| Cls (c : cls)                              (* [...] *)
| Rep (c : cls) (lo : nat) (hi : option nat) (* [...]{lo,hi}, [...]* *)
| Look (r : re)                              (* (?=r) *)
| Seq (r1 r2 : re)
| Alt (r1 r2 : re).                          (* r1|r2 *)

Definition code (c : ascii) : nat := nat_of_ascii c.

Definition between (lo hi : nat) : cls :=
  fun c => Nat.leb lo (code c) && Nat.leb (code c) hi.

Definition one_of (s : string) : cls :=
  fun c => existsb (Ascii.eqb c) (list_ascii_of_string s).

Definition union (a b : cls) : cls := fun c => a c || b c.

(** Line terminators among the 8-bit code units: LF and CR.  The two
    others of the language, U+2028 and U+2029, lie above 255: a value that
    holds one is not a [string] of this development. *)
Definition line_terminator : cls := fun c => Nat.eqb (code c) 10 || Nat.eqb (code c) 13.

(** [.] *)
Definition dot : cls := fun c => negb (line_terminator c).
(** [\d] and [0-9] *)
Definition digit : cls := between 48 57.
(** [A-Z] *)
Definition upper : cls := between 65 90.
(** [a-z] *)
Definition lower : cls := between 97 122.
(** [\w] *)
Definition word : cls :=
  union (union lower upper) (union digit (fun c => Nat.eqb (code c) 95)).

Definition hi_allows (hi : option nat) : bool :=
  match hi with
  | Some 0 => false
  | _ => true
  end.

Section Matcher.

(** The [m] flag. *)
Variable multiline : bool.

Definition boundary (side : list ascii) : bool :=
  match side with
  | [] => true
  | c :: _ => multiline && line_terminator c
  end.

(** Repetition of a class: stop here when the lower bound is met, or
    consume one more character of the class. *)
Fixpoint repAt (c : cls) (lo : nat) (hi : option nat)
    (before after : list ascii)
    (k : list ascii -> list ascii -> bool) : bool :=
  (match lo with 0 => k before after | S _ => false end)
  || match after with
     | [] => false
     | a :: rest =>
         c a && hi_allows hi
         && repAt c (Nat.pred lo) (option_map Nat.pred hi) (a :: before) rest k
     end.

(** [matchAt r before after k]: [r] matches at the position whose
    preceding characters are [before] (nearest first) and whose following
    characters are [after], and the continuation accepts the position
    reached. *)
Fixpoint matchAt (r : re) (before after : list ascii)
    (k : list ascii -> list ascii -> bool) : bool :=
  match r with
  | Eps => k before after
  | Bol => boundary before && k before after
  | Eol => boundary after && k before after
  | Cls c =>
      match after with
      | [] => false
      | a :: rest => c a && k (a :: before) rest
      end
  | Rep c lo hi => repAt c lo hi before after k
  | Look r1 => matchAt r1 before after (fun _ _ => true) && k before after
  | Seq r1 r2 => matchAt r1 before after (fun b a => matchAt r2 b a k)
  | Alt r1 r2 => matchAt r1 before after k || matchAt r2 before after k
  end.

Definition accept : list ascii -> list ascii -> bool := fun _ _ => true.

(** The search of [exec]: the first start position, from 0 on, at which
    the expression matches. *)
Fixpoint execFrom (r : re) (before after : list ascii) : bool :=
  matchAt r before after accept
  || match after with
     | [] => false
     | a :: rest => execFrom r (a :: before) rest
     end.

End Matcher.

(** [regex.exec(s) !== null] *)
Definition exec (multiline : bool) (r : re) (s : string) : bool :=
  execFrom multiline r [] (list_ascii_of_string s).

End Regex.

Import Regex.

(** Concatenation of a list of expressions. *)
Definition cat (rs : list re) : re := fold_right Seq Eps rs.

(** ** The regular expressions of [customerRegister]

    All four literals carry the flags [gm]. *)

(** [[!@#$%^&*]] *)
Definition symbol : cls := one_of "!@#$%^&*".

(** [[\w!@#$%^&*]] *)
Definition pwdChar : cls := union word symbol.

(** [[/-]] *)
Definition dateSep : cls := one_of "/-".

(** [(?=.*[c])] *)
Definition somewhere (c : cls) : re := Look (cat [Rep dot 0 None; Cls c]).

(** [/^(?=.*[\d])(?=.*[A-Z])(?=.*[a-z])(?=.*[!@#$%^&*])[\w!@#$%^&*]{8,}$/gm] *)
Definition regexPwd : re :=
  cat [Bol; somewhere digit; somewhere upper; somewhere lower;
       somewhere symbol; Rep pwdChar 8 None; Eol].

(** [/^\d{4}[/-]\d{2}[/-]\d{2}$/gm] *)
Definition regexDoB : re :=
  cat [Bol; Rep digit 4 (Some 4); Cls dateSep; Rep digit 2 (Some 2);
       Cls dateSep; Rep digit 2 (Some 2); Eol].

(** [/^[0-9]{9}$|^[0-9]{12}$/gm] *)
Definition regexIdentNum : re :=
  Alt (cat [Bol; Rep digit 9 (Some 9); Eol])
      (cat [Bol; Rep digit 12 (Some 12); Eol]).

(** [/^\d{4}[/-]\d{2}[/-]\d{2}$/gm] *)
Definition regexRegDate : re :=
  cat [Bol; Rep digit 4 (Some 4); Cls dateSep; Rep digit 2 (Some 2);
       Cls dateSep; Rep digit 2 (Some 2); Eol].

(** ** Enumerations *)

(** Property lookup [obj[key]] on an object literal: own properties first,
    then the properties every object literal inherits from
    [Object.prototype]. *)
Definition Object_prototype : list (string * Js.value) :=
  [("constructor", Js.VObject "Object");
   ("toString", Js.VObject "Object.prototype.toString");
   ("toLocaleString", Js.VObject "Object.prototype.toLocaleString");
   ("valueOf", Js.VObject "Object.prototype.valueOf");
   ("hasOwnProperty", Js.VObject "Object.prototype.hasOwnProperty");
   ("isPrototypeOf", Js.VObject "Object.prototype.isPrototypeOf");
   ("propertyIsEnumerable", Js.VObject "Object.prototype.propertyIsEnumerable");
   ("__proto__", Js.VObject "Object.prototype");
   ("__defineGetter__", Js.VObject "Object.prototype.__defineGetter__");
   ("__defineSetter__", Js.VObject "Object.prototype.__defineSetter__");
   ("__lookupGetter__", Js.VObject "Object.prototype.__lookupGetter__");
   ("__lookupSetter__", Js.VObject "Object.prototype.__lookupSetter__")].

Fixpoint assoc (key : string) (props : list (string * Js.value))
  : option Js.value :=
  match props with
  | [] => None
  | (k, v) :: rest => if String.eqb k key then Some v else assoc key rest
  end.

Definition get (own : list (string * Js.value)) (key : string) : Js.value :=
  match assoc key own with
  | Some v => v
  | None =>
      match assoc key Object_prototype with
      | Some v => v
      | None => Js.VUndefined
      end
  end.

(** Modelled from the spec: the module [utils/statusEnum], which is not
    among the sources.  Account Status is the enumeration
    {active, inactive, blocked, deleted}; each name is its own value. *)
Definition STATUS : list (string * Js.value) :=
  [("active", Js.VString "active");
   ("inactive", Js.VString "inactive");
   ("blocked", Js.VString "blocked");
   ("deleted", Js.VString "deleted")].

Definition STATUS_active : Js.value := get STATUS "active".
Definition STATUS_inactive : Js.value := get STATUS "inactive".
Definition STATUS_blocked : Js.value := get STATUS "blocked".
Definition STATUS_deleted : Js.value := get STATUS "deleted".

(** Modelled from the spec: the module [utils/roleEnum], which is not among
    the sources.  The closed set of roles includes staff and admin. *)
Definition ROLE_staff : string := "staff".
Definition ROLE_admin : string := "admin".

(** ** Records of the store *)

Module Role.
Record t := { roleDescription : string }.
End Role.

Module Staff.
Record t := {
  id : Z;
  username : string;
  password : string;
  name : string;
  status : Js.value;
  (** the joined [Role] row, when the staff has one *)
  Role : option Role.t
}.

(** [staff.status = newStatus] *)
Definition set_status (v : Js.value) (s : t) : t :=
  {| id := id s; username := username s; password := password s;
     name := name s; status := v; Role := Role s |}.
End Staff.

Module Customer.
Record t := {
  id : Z;
  username : string;
  email : string;
  password : string;
  name : option string;
  dateOfBirth : option string;
  phoneNumber : option string;
  address : option string;
  verifyCode : string;
  status : Js.value
}.
End Customer.

Definition Buffer := list Byte.byte.

Module Identity.
Record t := {
  customerId : Z;
  identityNumber : string;
  registrationDate : string;
  frontImage : Buffer;
  backImage : Buffer
}.
End Identity.

Record Store := {
  customers : list Customer.t;
  staffs : list Staff.t;
  identities : list Identity.t
}.

(** The principal that [authorize] attaches to the request as [req.user]. *)
Inductive User :=
| UCustomer (c : Customer.t)
| UStaff (s : Staff.t).

Definition user_status (u : User) : Js.value :=
  match u with
  | UCustomer c => Customer.status c
  | UStaff s => Staff.status s
  end.

(** [req.user.Role] *)
Definition user_Role (u : User) : option Role.t :=
  match u with
  | UCustomer _ => None
  | UStaff s => Staff.Role s
  end.

(** ** Outcomes of a handler *)

(** [new AppError(message, statusCode)] *)
Record AppError := { message : string; statusCode : Z }.

(** What [jwt.verify] throws. *)
Inductive TokenError :=
| Malformed   (* JsonWebTokenError *)
| Expired.    (* TokenExpiredError *)

(** An exception that [asyncHandler] forwards to [next]. *)
Inductive Exn :=
| JwtError (e : TokenError)
| TypeError (what : string)
| StoreError (what : string).

(** The attributes of a staff that the management endpoints return:
    [password], [roleId] and [passwordUpdatedAt] are excluded. *)
Record StaffView := {
  v_id : Z;
  v_username : string;
  v_name : string;
  v_status : Js.value;
  v_Role : option Role.t
}.

Definition view (s : Staff.t) : StaffView :=
  {| v_id := Staff.id s; v_username := Staff.username s;
     v_name := Staff.name s; v_status := Staff.status s;
     v_Role := Staff.Role s |}.

(** The JSON bodies of the success envelope. *)
Inductive Body :=
| BToken (token : string)
| BData (data : StaffView)
| BItems (totalItems : nat) (items : list StaffView).

(** How a middleware or handler ends: it calls [next()] and passes a value
    on, calls [next(err)] with an [AppError], throws, or sends a JSON
    response. *)
Inductive outcome (A : Type) :=
| Pass (a : A)
| NextErr (e : AppError)
| Throws (e : Exn)
| Respond (code : Z) (body : Body).

Arguments Pass {A} a.
Arguments NextErr {A} e.
Arguments Throws {A} e.
Arguments Respond {A} code body.

(** Chaining of middleware: only [next()] reaches the following one. *)
Definition andThen {A B} (m : outcome A) (f : A -> outcome B) : outcome B :=
  match m with
  | Pass a => f a
  | NextErr e => NextErr e
  | Throws e => Throws e
  | Respond code body => Respond code body
  end.

(** Modelled from the spec: the error handler at the request boundary,
    which is not among the sources.  An [AppError] is answered with its own
    status code, a token verification failure is InvalidToken
    (401-equivalent), an unexpected store or internal error is fatal to the
    request (500-equivalent). *)
Definition httpStatus {A} (o : outcome A) : option Z :=
  match o with
  | Pass _ => None
  | NextErr e => Some (statusCode e)
  | Throws (JwtError _) => Some 401%Z
  | Throws (TypeError _) => Some 500%Z
  | Throws (StoreError _) => Some 500%Z
  | Respond code _ => Some code
  end.

(** ** auth.controller.js *)

(** The payload [{ type, id }] that [signToken] signs and [jwt.verify]
    decodes. *)
Record Claims := { c_type : string; c_id : Z }.

(** The body of a registration request after the upload middleware. *)
Module Register.
Record body := {
  email : option string;
  username : option string;
  password : option string;
  name : option string;
  dateOfBirth : option string;
  phoneNumber : option string;
  address : option string;
  identityNumber : option string;
  registrationDate : option string;
  frontImage : option Buffer;
  backImage : option Buffer
}.

(** [req.body.frontImage = ...; req.body.backImage = ...] *)
Definition set_images (front back : Buffer) (b : body) : body :=
  {| email := email b; username := username b; password := password b;
     name := name b; dateOfBirth := dateOfBirth b;
     phoneNumber := phoneNumber b; address := address b;
     identityNumber := identityNumber b;
     registrationDate := registrationDate b;
     frontImage := Some front; backImage := Some back |}.
End Register.

(** [req.files] as [upload.fields] leaves it: for each of the two field
    names, [undefined] or the array of the uploaded files, each file given
    by its [buffer].  [req.files] itself is [undefined] when the
    middleware did not parse the request. *)
Module Files.
Record t := {
  frontImage : option (list Buffer);
  backImage : option (list Buffer)
}.
End Files.

Definition present {A} (o : option A) : bool :=
  match o with
  | Some _ => true
  | None => false
  end.

Definition err (msg : string) (code : Z) : AppError :=
  {| message := msg; statusCode := code |}.

Definition errNotLoggedIn : AppError :=
  err "You are not logged in! Please log in to get access." 401.
Definition errNoLongerExists : AppError :=
  err "The user belonging to this token does no longer exists." 401.
Definition errInactive : AppError := err "Your account is inactive!" 403.
Definition errBlocked : AppError := err "Your account is blocked!" 403.
Definition errForbidden : AppError :=
  err "You do not have permission to perform this action." 403.
Definition errMissingLogin : AppError :=
  err "Please provide username/email and password!" 400.
Definition errIncorrectLogin : AppError :=
  err "Incorrect username/email or password" 401.
Definition errWeakPassword : AppError :=
  err "Password must be minimum eight characters, at least one uppercase letter, one lowercase letter, one number and one special character." 400.
Definition errBadDateOfBirth : AppError := err "Date of birth is invalid" 400.
Definition errIncompleteIdentity : AppError :=
  err "Please provide a full identity." 400.
Definition errBadIdentityNumber : AppError :=
  err "Identity number must be 9 or 12 characters in length." 400.
Definition errBadRegistrationDate : AppError :=
  err "Date of registration is invalid" 400.
Definition errNoImages : AppError :=
  err "Please provide front and back images!" 400.

(** [{ status: { [Op.ne]: STATUS.deleted } }] *)
Definition notDeleted (status : Js.value) : bool :=
  negb (Js.value_eqb status STATUS_deleted).

Section Auth.

(** The collaborators of the controller that live outside the sources:
    the [jsonwebtoken] library under the process-wide secret and clock,
    the password verification of [utils/passwordValidator], and the image
    encoder [sharp(buffer).toFormat('jpeg').jpeg({ quality: 80 })
    .toBuffer()], whose promise is rejected with an exception for an input
    it cannot decode. *)
Variable jwt_sign : Claims -> string.
Variable jwt_verify : string -> TokenError + Claims.
Variable verifyHashedPassword : string -> string -> bool.
Variable sharp_jpeg80 : Buffer -> Exn + Buffer.

Definition signToken (type : string) (id : Z) : string :=
  jwt_sign {| c_type := type; c_id := id |}.

(** [compressIdentityImages], on [req.files] and [req.body].  Reading a
    property of an [undefined] [req.files], or [.buffer] of the [undefined]
    first element of an empty array, throws a [TypeError]; the front image
    is read and re-encoded before the back image is read. *)
Definition compressIdentityImages (files : option Files.t)
    (b : Register.body) : outcome Register.body :=
  match files with
  | None => Throws (TypeError "req.files.frontImage")
  | Some fs =>
      match Files.frontImage fs, Files.backImage fs with
      | Some fronts, Some backs =>
          match fronts with
          | [] => Throws (TypeError "req.files.frontImage[0].buffer")
          | front :: _ =>
              match sharp_jpeg80 front with
              | inl e => Throws e
              | inr front' =>
                  match backs with
                  | [] => Throws (TypeError "req.files.backImage[0].buffer")
                  | back :: _ =>
                      match sharp_jpeg80 back with
                      | inl e => Throws e
                      | inr back' =>
                          Pass (Register.set_images front' back' b)
                      end
                  end
              end
          end
      | _, _ => NextErr errNoImages
      end
  end.

(** [Customer.findOne({ where: { id } })] *)
Definition findCustomerById (db : Store) (id : Z) : option Customer.t :=
  find (fun c => Z.eqb (Customer.id c) id) (customers db).

(** [Staff.findOne({ include: { model: Role }, where: { id } })] *)
Definition findStaffById (db : Store) (id : Z) : option Staff.t :=
  find (fun s => Z.eqb (Staff.id s) id) (staffs db).

(** [authorize], on the request's [Authorization] header; [Pass u] is
    [req.user = u; next()]. *)
Definition authorize (authorization : option string) (db : Store)
  : outcome User :=
  if Js.truthy_field authorization
     && Js.startsWith "Bearer " (Js.to_string authorization)
  then
    let verified :=
      match nth_error (Js.split " " (Js.to_string authorization)) 1 with
      | Some token => jwt_verify token
      | None => inl Malformed
      end in
    match verified with
    | inl e => Throws (JwtError e)
    | inr decoded =>
        let currentUser :=
          if String.eqb (c_type decoded) "customer" then
            option_map UCustomer (findCustomerById db (c_id decoded))
          else if String.eqb (c_type decoded) "staff" then
            option_map UStaff (findStaffById db (c_id decoded))
          else None in
        match currentUser with
        | None => NextErr errNoLongerExists
        | Some u =>
            if Js.value_eqb (user_status u) STATUS_deleted then
              NextErr errNoLongerExists
            else if Js.value_eqb (user_status u) STATUS_inactive then
              NextErr errInactive
            else if Js.value_eqb (user_status u) STATUS_blocked then
              NextErr errBlocked
            else Pass u
        end
    end
  else NextErr errNotLoggedIn.

(** [restrictTo(...roles)] *)
Definition restrictTo (roles : list string) (u : User) : outcome User :=
  match user_Role u with
  | None => NextErr errForbidden
  | Some r =>
      if negb (existsb (String.eqb (Role.roleDescription r)) roles)
      then NextErr errForbidden
      else Pass u
  end.

(** [router.use(authorize, restrictTo(...roles))], and a router that
    declares no role-set. *)
Definition gate (roles : option (list string))
    (authorization : option string) (db : Store) : outcome User :=
  andThen (authorize authorization db)
          (fun u => match roles with
                    | Some rs => restrictTo rs u
                    | None => Pass u
                    end).

(** The gate of [staff.routes.js]. *)
Definition staffGate : option string -> Store -> outcome User :=
  gate (Some [ROLE_staff; ROLE_admin]).

(** [Customer.findOne({ where: { [Op.or]: [{ username }, { email:
    username }], status: { [Op.ne]: STATUS.deleted } } })] *)
Definition findCustomerByLogin (db : Store) (u : string)
  : option Customer.t :=
  find (fun c => (String.eqb (Customer.username c) u
                  || String.eqb (Customer.email c) u)
                 && notDeleted (Customer.status c))
       (customers db).

(** [Staff.findOne({ where: { username, status: { [Op.ne]:
    STATUS.deleted } } })] *)
Definition findStaffByLogin (db : Store) (u : string) : option Staff.t :=
  find (fun s => String.eqb (Staff.username s) u
                 && notDeleted (Staff.status s))
       (staffs db).

(** [customerLogin] *)
Definition customerLogin (username password : option string) (db : Store)
  : outcome unit :=
  if negb (Js.truthy_field username) || negb (Js.truthy_field password) then
    NextErr errMissingLogin
  else
    match findCustomerByLogin db (Js.to_string username) with
    | None => NextErr errIncorrectLogin
    | Some c =>
        if negb (verifyHashedPassword (Js.to_string password)
                                      (Customer.password c))
        then NextErr errIncorrectLogin
        else Respond 200 (BToken (signToken "customer" (Customer.id c)))
    end.

(** [staffLogin] *)
Definition staffLogin (username password : option string) (db : Store)
  : outcome unit :=
  if negb (Js.truthy_field username) || negb (Js.truthy_field password) then
    NextErr errMissingLogin
  else
    match findStaffByLogin db (Js.to_string username) with
    | None => NextErr errIncorrectLogin
    | Some s =>
        if negb (verifyHashedPassword (Js.to_string password)
                                      (Staff.password s))
        then NextErr errIncorrectLogin
        else Respond 200 (BToken (signToken "staff" (Staff.id s)))
    end.

End Auth.

(** [const matchedPwd = regexPwd.exec(password)] and its siblings, as the
    truthiness that the handler tests. *)
Definition matchedPwd (password : option string) : bool :=
  exec true regexPwd (Js.to_string password).
Definition matchedDoB (dateOfBirth : option string) : bool :=
  exec true regexDoB (Js.to_string dateOfBirth).
Definition matchedIdentNum (identityNumber : option string) : bool :=
  exec true regexIdentNum (Js.to_string identityNumber).
Definition matchedRegDate (registrationDate : option string) : bool :=
  exec true regexRegDate (Js.to_string registrationDate).

Section Registration.

(** Collaborators outside the sources: token signing, password hashing,
    the UUID drawn for this request, and the store's side of
    [Customer.create] and [Identity.create] (the identifier it assigns and
    whether it accepts the row: constraints, capacity, availability). *)
Variable jwt_sign : Claims -> string.
Variable createHashedPassword : string -> string.
Variable uuidv4 : string.
Variable new_customer_id : Store -> Z.
Variable accepts_customer : Store -> Customer.t -> bool.
Variable accepts_identity : Store -> Identity.t -> bool.

Definition add_customer (c : Customer.t) (db : Store) : Store :=
  {| customers := customers db ++ [c]; staffs := staffs db;
     identities := identities db |}.

Definition add_identity (i : Identity.t) (db : Store) : Store :=
  {| customers := customers db; staffs := staffs db;
     identities := identities db ++ [i] |}.

Definition buffer_of (o : option Buffer) : Buffer :=
  match o with
  | Some b => b
  | None => []
  end.

(** The attributes that [customerRegister] passes to [Customer.create],
    with the identifier the store assigns.  A new account starts in status
    active (modelled from the spec: the column default is declared in the
    model, which is not among the sources). *)
Definition customerRow (b : Register.body) (db : Store)
    (username email : string) : Customer.t :=
  {| Customer.id := new_customer_id db;
     Customer.username := Js.toLowerCase (Js.trim username);
     Customer.email := Js.toLowerCase (Js.trim email);
     Customer.password :=
       createHashedPassword (Js.to_string (Register.password b));
     Customer.name := Register.name b;
     Customer.dateOfBirth := Register.dateOfBirth b;
     Customer.phoneNumber := Register.phoneNumber b;
     Customer.address := Register.address b;
     Customer.verifyCode := uuidv4;
     Customer.status := STATUS_active |}.

(** The attributes that [customerRegister] passes to [Identity.create]. *)
Definition identityRow (b : Register.body) (customer : Customer.t)
  : Identity.t :=
  {| Identity.customerId := Customer.id customer;
     Identity.identityNumber := Js.to_string (Register.identityNumber b);
     Identity.registrationDate :=
       Js.to_string (Register.registrationDate b);
     Identity.frontImage := buffer_of (Register.frontImage b);
     Identity.backImage := buffer_of (Register.backImage b) |}.

(** The two [create] calls at the end of [customerRegister], one after the
    other, and the token for the new customer. *)
Definition createRecords (b : Register.body) (db : Store)
  : outcome unit * Store :=
  match Register.username b, Register.email b with
  | None, _ => (Throws (TypeError "username.trim"), db)
  | Some _, None => (Throws (TypeError "email.trim"), db)
  | Some u, Some e =>
      let customer := customerRow b db u e in
      if negb (accepts_customer db customer) then
        (Throws (StoreError "Customer.create"), db)
      else
        let db1 := add_customer customer db in
        let identity := identityRow b customer in
        if negb (accepts_identity db1 identity) then
          (Throws (StoreError "Identity.create"), db1)
        else
          (Respond 201
             (BToken (signToken jwt_sign "customer" (Customer.id customer))),
           add_identity identity db1)
  end.

(** [customerRegister] *)
Definition customerRegister (b : Register.body) (db : Store)
  : outcome unit * Store :=
  if negb (matchedPwd (Register.password b)) then
    (NextErr errWeakPassword, db)
  else if negb (matchedDoB (Register.dateOfBirth b)) then
    (NextErr errBadDateOfBirth, db)
  else if negb (Js.truthy_field (Register.identityNumber b))
          || negb (Js.truthy_field (Register.registrationDate b))
          || negb (present (Register.frontImage b))
          || negb (present (Register.backImage b))
  then (NextErr errIncompleteIdentity, db)
  else if negb (matchedIdentNum (Register.identityNumber b)) then
    (NextErr errBadIdentityNumber, db)
  else if negb (matchedRegDate (Register.registrationDate b)) then
    (NextErr errBadRegistrationDate, db)
  else createRecords b db.

End Registration.

(** ** admin.controller.js *)

Definition errInvalidStatus : AppError := err "Status is not valid!" 400.
Definition errCantFindStaff : AppError := err "Can't find that staff!" 404.

(** The query string of [getAllStaffs]; [page] and [limit] are the numbers
    their strings denote. *)
Record ListQuery := {
  sortBy : option string;
  sortType : option string;
  page : option Z;
  limit : option Z;
  q_username : option string;
  q_name : option string
}.

(** [include: excludeAdmin]: the join on a [Role] whose description is not
    admin; a [where] inside an [include] makes the join required. *)
Definition excludeAdmin (s : Staff.t) : bool :=
  match Staff.Role s with
  | Some r => negb (String.eqb (Role.roleDescription r) ROLE_admin)
  | None => false
  end.

(** [findStaff] *)
Definition findStaff (db : Store) (id : Z) : option Staff.t :=
  find (fun s => excludeAdmin s
                 && (Z.eqb (Staff.id s) id && notDeleted (Staff.status s)))
       (staffs db).

(** [getStaff] *)
Definition getStaff (id : Z) (db : Store) : outcome unit :=
  match findStaff db id with
  | None => NextErr errCantFindStaff
  | Some staff => Respond 200 (BData (view staff))
  end.

(** [staff.save()]: the UPDATE of the changed attribute on the row with the
    instance's primary key. *)
Definition save (staff : Staff.t) (db : Store) : Store :=
  {| customers := customers db;
     staffs :=
       map (fun r => if Z.eqb (Staff.id r) (Staff.id staff)
                     then Staff.set_status (Staff.status staff) r else r)
           (staffs db);
     identities := identities db |}.

Section Management.

(** The model's side of [staff.save()], which is not among the sources:
    whether the attribute values of the instance pass the validation of
    the [Staff] model. *)
Variable valid_staff : Staff.t -> bool.

(** [updateStaffStatus] *)
Definition updateStaffStatus (idStaff : Z) (status : option string)
    (db : Store) : outcome unit * Store :=
  let newStatus := get STATUS (Js.to_string status) in
  if negb (Js.truthy newStatus) then (NextErr errInvalidStatus, db)
  else
    match find (fun s => excludeAdmin s && Z.eqb (Staff.id s) idStaff)
               (staffs db) with
    | None => (NextErr errCantFindStaff, db)
    | Some s =>
        let staff := Staff.set_status newStatus s in
        if negb (valid_staff staff) then
          (Throws (StoreError "Staff.save"), db)
        else (Respond 200 (BData (view staff)), save staff db)
    end.

End Management.

Section Listing.

(** The store engine's side of the listing query: the [LIKE] operator and
    the [ORDER BY] clause. *)
Variable sql_like : string -> string -> bool.
Variable order_by : string -> string -> list Staff.t -> list Staff.t.

Definition or_default (v : option Z) (d : Z) : Z :=
  match v with
  | Some n => if (n <=? 0)%Z then d else n
  | None => d
  end.

Definition one_of_or (allowed : list string) (v : option string)
    (d : string) : string :=
  match v with
  | Some x =>
      if Js.truthy_field v && existsb (String.eqb x) allowed then x else d
  | None => d
  end.

Definition like_filter (column : Staff.t -> string) (v : option string)
  : list (Staff.t -> bool) :=
  match v with
  | Some x =>
      if Js.truthy_field v
      then [fun s => sql_like (column s) ("%" ++ x ++ "%")]
      else []
  | None => []
  end.

(** [getAllStaffs] *)
Definition getAllStaffs (q : ListQuery) (db : Store) : outcome unit :=
  let page := or_default (page q) 1 in
  let limit := or_default (limit q) 10 in
  let sortType := one_of_or ["asc"; "desc"] (sortType q) "asc" in
  let sortBy := one_of_or ["username"; "name"] (sortBy q) "updatedAt" in
  let filterArr :=
    (like_filter Staff.username (q_username q)
     ++ like_filter Staff.name (q_name q))%list in
  let matching :=
    filter (fun s => excludeAdmin s
                     && (notDeleted (Staff.status s)
                         && forallb (fun f => f s) filterArr))
           (staffs db) in
  let rows :=
    firstn (Z.to_nat limit)
           (skipn (Z.to_nat ((page - 1) * limit))
                  (order_by sortBy sortType matching)) in
  Respond 200 (BItems (List.length matching) (map view rows)).

End Listing.

(** ** Vocabulary of the statements *)

Definition chars (s : string) : list ascii := list_ascii_of_string s.

Definition has (c : cls) (s : string) : bool := existsb c (chars s).

Definition all_in (c : cls) (s : string) : bool := forallb c (chars s).

(** A value without a line terminator. *)
Definition single_line (s : string) : bool := all_in dot s.

Definition only (c : ascii) : cls := Ascii.eqb c.

(** The password rule as the specification words it: length at least 8,
    a digit, an uppercase letter, a lowercase letter and a symbol of the
    punctuation set. *)
Definition spec_strong_password (p : string) : bool :=
  Nat.leb 8 (List.length (chars p))
  && has digit p && has upper p && has lower p && has symbol p.

(** The rule of [regexPwd] on one line: the five conditions, and every
    character drawn from the alphabet [[\w!@#$%^&*]]. *)
Definition strong_password (p : string) : bool :=
  spec_strong_password p && all_in pwdChar p.

(** Four digits, a separator, two digits, a separator, two digits. *)
Definition date_with (sep1 sep2 : cls) (s : string) : bool :=
  match chars s with
  | [y1; y2; y3; y4; s1; m1; m2; s2; d1; d2] =>
      digit y1 && digit y2 && digit y3 && digit y4 && sep1 s1
      && digit m1 && digit m2 && sep2 s2 && digit d1 && digit d2
  | _ => false
  end.

(** The date rule as the specification words it: [YYYY-MM-DD] or
    [YYYY/MM/DD]. *)
Definition spec_date (s : string) : bool :=
  date_with (only "-") (only "-") s || date_with (only "/") (only "/") s.

(** The rule of [regexDoB] and [regexRegDate] on one line: each separator
    is, on its own, a dash or a slash. *)
Definition date_shape (s : string) : bool := date_with dateSep dateSep s.

(** Exactly 9 or exactly 12 digits. *)
Definition digits_9_or_12 (s : string) : bool :=
  all_in digit s
  && (Nat.eqb (List.length (chars s)) 9 || Nat.eqb (List.length (chars s)) 12).

(** ** The Access Gate in the specification's words

    The ordered pipeline of the specification: extract the bearer token,
    verify it, resolve the principal, check the status, check the
    role-set. *)

Inductive AuthError :=
| MissingCredential
| InvalidToken (e : TokenError)
| PrincipalGone
| AccountInactive
| AccountBlocked
| Forbidden.

(** The status class of each failure: 401-equivalent or 403-equivalent. *)
Definition authStatus (e : AuthError) : Z :=
  match e with
  | MissingCredential | InvalidToken _ | PrincipalGone => 401
  | AccountInactive | AccountBlocked | Forbidden => 403
  end.

(** The outcome by which the controller reports each failure. *)
Definition raise (e : AuthError) : outcome User :=
  match e with
  | MissingCredential => NextErr errNotLoggedIn
  | InvalidToken t => Throws (JwtError t)
  | PrincipalGone => NextErr errNoLongerExists
  | AccountInactive => NextErr errInactive
  | AccountBlocked => NextErr errBlocked
  | Forbidden => NextErr errForbidden
  end.

(** Step 1: the text between the prefix [Bearer ] and the next space. *)
Fixpoint upToSpace (s : string) : string :=
  match s with
  | EmptyString => EmptyString
  | String c rest => if Ascii.eqb c " " then EmptyString
                     else String c (upToSpace rest)
  end.

Definition bearer (authorization : option string) : option string :=
  match authorization with
  | Some h =>
      if String.prefix "Bearer " h
      then Some (upToSpace (String.substring 7 (String.length h - 7) h))
      else None
  | None => None
  end.

(** Step 3, the Principal Resolver: dispatch on the principal type; a
    deleted record resolves like a missing one. *)
Definition lookup (db : Store) (claims : Claims) : option User :=
  if String.eqb (c_type claims) "customer" then
    option_map UCustomer
      (find (fun c => Z.eqb (Customer.id c) (c_id claims)) (customers db))
  else if String.eqb (c_type claims) "staff" then
    option_map UStaff
      (find (fun s => Z.eqb (Staff.id s) (c_id claims)) (staffs db))
  else None.

Definition resolve (db : Store) (claims : Claims) : option User :=
  match lookup db claims with
  | Some u => if Js.value_eqb (user_status u) STATUS_deleted then None
              else Some u
  | None => None
  end.

(** Step 5: the principal is a staff whose role description is a member
    of the declared role-set. *)
Definition inRoleSet (roles : list string) (u : User) : bool :=
  match u with
  | UStaff s =>
      match Staff.Role s with
      | Some r => existsb (String.eqb (Role.roleDescription r)) roles
      | None => false
      end
  | UCustomer _ => false
  end.

Definition accessGate (jwt_verify : string -> TokenError + Claims)
    (roles : option (list string)) (authorization : option string)
    (db : Store) : AuthError + User :=
  match bearer authorization with
  | None => inl MissingCredential
  | Some token =>
      match jwt_verify token with
      | inl e => inl (InvalidToken e)
      | inr claims =>
          match resolve db claims with
          | None => inl PrincipalGone
          | Some u =>
              if Js.value_eqb (user_status u) STATUS_inactive then
                inl AccountInactive
              else if Js.value_eqb (user_status u) STATUS_blocked then
                inl AccountBlocked
              else
                match roles with
                | None => inr u
                | Some rs => if inRoleSet rs u then inr u else inl Forbidden
                end
          end
      end
  end.

(** ** The registration validations in the specification's order *)

Inductive ValidationError :=
| WeakPassword
| BadDateOfBirth
| IncompleteIdentity
| BadIdentityNumber
| BadRegistrationDate.

Definition validationOrder : list ValidationError :=
  [WeakPassword; BadDateOfBirth; IncompleteIdentity; BadIdentityNumber;
   BadRegistrationDate].

Definition report (v : ValidationError) : AppError :=
  match v with
  | WeakPassword => errWeakPassword
  | BadDateOfBirth => errBadDateOfBirth
  | IncompleteIdentity => errIncompleteIdentity
  | BadIdentityNumber => errBadIdentityNumber
  | BadRegistrationDate => errBadRegistrationDate
  end.

(** The handler's own test of each step, taken on its own: the result of
    [exec] for the four patterns, the truthiness of the four fields for
    the completeness step. *)
Definition violates (b : Register.body) (v : ValidationError) : bool :=
  match v with
  | WeakPassword => negb (matchedPwd (Register.password b))
  | BadDateOfBirth => negb (matchedDoB (Register.dateOfBirth b))
  | IncompleteIdentity =>
      negb (Js.truthy_field (Register.identityNumber b)
            && Js.truthy_field (Register.registrationDate b)
            && present (Register.frontImage b)
            && present (Register.backImage b))
  | BadIdentityNumber => negb (matchedIdentNum (Register.identityNumber b))
  | BadRegistrationDate =>
      negb (matchedRegDate (Register.registrationDate b))
  end.

(** The five rules as the specification words them, each on the whole
    value of its field. *)
Definition spec_violates (b : Register.body) (v : ValidationError) : bool :=
  match v with
  | WeakPassword =>
      negb (spec_strong_password (Js.to_string (Register.password b)))
  | BadDateOfBirth =>
      negb (spec_date (Js.to_string (Register.dateOfBirth b)))
  | IncompleteIdentity =>
      negb (Js.truthy_field (Register.identityNumber b)
            && Js.truthy_field (Register.registrationDate b)
            && present (Register.frontImage b)
            && present (Register.backImage b))
  | BadIdentityNumber =>
      negb (digits_9_or_12 (Js.to_string (Register.identityNumber b)))
  | BadRegistrationDate =>
      negb (spec_date (Js.to_string (Register.registrationDate b)))
  end.

(** The five rules that the patterns of the handler decide on a value
    without a line terminator, each on the whole value of its field: the
    password rule with its alphabet, the date shape with each separator a
    dash or a slash, 9 or 12 digits. *)
Definition rule_violated (b : Register.body) (v : ValidationError) : bool :=
  match v with
  | WeakPassword =>
      negb (strong_password (Js.to_string (Register.password b)))
  | BadDateOfBirth =>
      negb (date_shape (Js.to_string (Register.dateOfBirth b)))
  | IncompleteIdentity =>
      negb (Js.truthy_field (Register.identityNumber b)
            && Js.truthy_field (Register.registrationDate b)
            && present (Register.frontImage b)
            && present (Register.backImage b))
  | BadIdentityNumber =>
      negb (digits_9_or_12 (Js.to_string (Register.identityNumber b)))
  | BadRegistrationDate =>
      negb (date_shape (Js.to_string (Register.registrationDate b)))
  end.

(** None of the four text fields that the patterns read holds a line
    terminator. *)
Definition single_line_fields (b : Register.body) : bool :=
  single_line (Js.to_string (Register.password b))
  && single_line (Js.to_string (Register.dateOfBirth b))
  && single_line (Js.to_string (Register.identityNumber b))
  && single_line (Js.to_string (Register.registrationDate b)).

(** ** Atomicity and visibility predicates *)

(** The store after a registration holds both new records or neither. *)
Definition bothOrNeither (db db' : Store) : Prop :=
  db' = db
  \/ exists c i,
       Identity.customerId i = Customer.id c
       /\ customers db' = (customers db ++ [c])%list
       /\ identities db' = (identities db ++ [i])%list
       /\ staffs db' = staffs db.

(** A customer of the store without an identity document. *)
Definition orphan (db : Store) (c : Customer.t) : Prop :=
  In c (customers db)
  /\ forall i, In i (identities db) ->
               Identity.customerId i <> Customer.id c.

Definition isAdmin (s : Staff.t) : bool :=
  match Staff.Role s with
  | Some r => String.eqb (Role.roleDescription r) ROLE_admin
  | None => false
  end.

(** The store with every admin record taken out. *)
Definition withoutAdmins (db : Store) : Store :=
  {| customers := customers db;
     staffs := filter (fun s => negb (isAdmin s)) (staffs db);
     identities := identities db |}.

(** The status names of the closed set. *)
Definition statusNames : list string :=
  ["active"; "inactive"; "blocked"; "deleted"].

(** ** Sample data *)

Definition roleStaff : Role.t := {| Role.roleDescription := ROLE_staff |}.
Definition roleAdmin : Role.t := {| Role.roleDescription := ROLE_admin |}.

Definition sampleHash (plaintext : string) : string := "h:" ++ plaintext.

Definition sampleVerifyHash (plaintext digest : string) : bool :=
  String.eqb (sampleHash plaintext) digest.

Definition mkStaff (id : Z) (username : string) (status : Js.value)
    (role : Role.t) : Staff.t :=
  {| Staff.id := id; Staff.username := username;
     Staff.password := sampleHash "Staff1!pw"; Staff.name := username;
     Staff.status := status; Staff.Role := Some role |}.

Definition mkCustomer (id : Z) (username email : string)
    (status : Js.value) : Customer.t :=
  {| Customer.id := id; Customer.username := username;
     Customer.email := email;
     Customer.password := sampleHash "Correct1!";
     Customer.name := Some username;
     Customer.dateOfBirth := Some "1990-01-02";
     Customer.phoneNumber := None; Customer.address := None;
     Customer.verifyCode := "code"; Customer.status := status |}.

Definition alice : Staff.t := mkStaff 1 "alice" STATUS_active roleStaff.
Definition bob : Staff.t := mkStaff 2 "bob" STATUS_blocked roleStaff.
Definition root : Staff.t := mkStaff 3 "root" STATUS_active roleAdmin.
Definition carol : Staff.t := mkStaff 4 "carol" STATUS_deleted roleStaff.
Definition dave : Staff.t := mkStaff 5 "dave" STATUS_inactive roleStaff.

Definition eve : Customer.t :=
  mkCustomer 1 "eve" "eve@bank.example" STATUS_active.
Definition mallory : Customer.t :=
  mkCustomer 2 "mallory" "mallory@bank.example" STATUS_blocked.

Definition eveIdentity : Identity.t :=
  {| Identity.customerId := 1; Identity.identityNumber := "123456789";
     Identity.registrationDate := "2012-03-04";
     Identity.frontImage := [Byte.xff]; Identity.backImage := [Byte.xfe] |}.

Definition sampleDb : Store :=
  {| customers := [eve; mallory];
     staffs := [alice; bob; root; carol; dave];
     identities := [eveIdentity] |}.

(** A token service with a fixed table of tokens. *)
Definition sampleTokens : list (string * Claims) :=
  [("staff.1", {| c_type := "staff"; c_id := 1 |});
   ("staff.2", {| c_type := "staff"; c_id := 2 |});
   ("staff.3", {| c_type := "staff"; c_id := 3 |});
   ("staff.4", {| c_type := "staff"; c_id := 4 |});
   ("staff.5", {| c_type := "staff"; c_id := 5 |});
   ("customer.1", {| c_type := "customer"; c_id := 1 |});
   ("customer.2", {| c_type := "customer"; c_id := 2 |});
   ("customer.3", {| c_type := "customer"; c_id := 3 |})].

Definition sampleVerify (token : string) : TokenError + Claims :=
  match find (fun e => String.eqb (fst e) token) sampleTokens with
  | Some e => inr (snd e)
  | None => if String.eqb token "old" then inl Expired else inl Malformed
  end.

Definition sampleSign (claims : Claims) : string :=
  match find (fun e => String.eqb (c_type (snd e)) (c_type claims)
                       && Z.eqb (c_id (snd e)) (c_id claims))
             sampleTokens with
  | Some e => fst e
  | None => "unlisted"
  end.

Definition staffRoles : option (list string) :=
  Some [ROLE_staff; ROLE_admin].

Definition mkBody (password dateOfBirth identityNumber registrationDate
                   : option string) : Register.body :=
  {| Register.email := Some " Trent@Bank.Example ";
     Register.username := Some "Trent";
     Register.password := password;
     Register.name := Some "Trent";
     Register.dateOfBirth := dateOfBirth;
     Register.phoneNumber := None;
     Register.address := None;
     Register.identityNumber := identityNumber;
     Register.registrationDate := registrationDate;
     Register.frontImage := Some [Byte.xff; Byte.xd8];
     Register.backImage := Some [Byte.xff; Byte.xd9] |}.

(** A payload that passes every validation. *)
Definition goodBody : Register.body :=
  mkBody (Some "Passw0rd!") (Some "1990-01-02") (Some "123456789")
         (Some "2015/06/07").

Definition sampleNewId (db : Store) : Z :=
  Z.of_nat (List.length (customers db)) + 1.

Definition acceptAll {A} (db : Store) (row : A) : bool := true.

(** The registration handler with the sample collaborators and a store
    that accepts every row. *)
Definition sampleRegister : Register.body -> Store -> outcome unit * Store :=
  customerRegister sampleSign sampleHash "0b5e" sampleNewId
                   acceptAll acceptAll.

(** A [Staff] model that takes any attribute value, and one whose status
    column takes strings only. *)
Definition anyStaff (s : Staff.t) : bool := true.

Definition stringStatus (s : Staff.t) : bool :=
  match Staff.status s with
  | Js.VString _ => true
  | _ => false
  end.

(** A store that keeps identity numbers unique. *)
Definition uniqueIdentityNumber (db : Store) (i : Identity.t) : bool :=
  negb (existsb (fun j => String.eqb (Identity.identityNumber j)
                                     (Identity.identityNumber i))
                (identities db)).


(** ** Lines of a value *)

(** The characters of a value up to its first line terminator. *)
Fixpoint firstLine (s : list ascii) : list ascii :=
  match s with
  | [] => []
  | c :: rest => if line_terminator c then [] else c :: firstLine rest
  end.

(** The lines of a value: the runs between line terminators, the empty
    ones included. *)
Fixpoint lines (s : list ascii) : list (list ascii) :=
  match s with
  | [] => [[]]
  | c :: rest =>
      if line_terminator c then [] :: lines rest
      else match lines rest with
           | l :: ls => (c :: l) :: ls
           | [] => [[c]]
           end
  end.

Definition linesOf (s : string) : list string :=
  map string_of_list_ascii (lines (chars s)).

(** A class without a line terminator in it. *)
Definition inLine (c : cls) : bool :=
  negb (c (ascii_of_nat 10)) && negb (c (ascii_of_nat 13)).

(** An expression without [^] whose classes hold no line terminator: what
    it matches from a position lies within the line of that position. *)
Fixpoint lineLocal (r : re) : bool :=
  match r with
  | Eps | Eol => true
  | Bol => false
  | Cls c => inLine c
  | Rep c _ _ => inLine c
  | Look r1 => lineLocal r1
  | Seq r1 r2 | Alt r1 r2 => lineLocal r1 && lineLocal r2
  end.

(** A continuation that looks at nothing but the rest of the line. *)
Definition lineOnly (k : list ascii -> list ascii -> bool) : Prop :=
  forall b b' a, k b a = k b' (firstLine a).

(** ** admin.controller.js: creation of staff and the log listing *)

Definition errNoStaffRole : AppError := err "Can't find staff role!" 500.

(** [Role.findOne({ where: { roleDescription: { [Op.eq]: ROLE.staff } } })]
    on the table of roles. *)
Definition findStaffRole (roles : list Role.t) : option Role.t :=
  find (fun r => String.eqb (Role.roleDescription r) ROLE_staff) roles.

Definition add_staff (s : Staff.t) (db : Store) : Store :=
  {| customers := customers db; staffs := (staffs db ++ [s])%list;
     identities := identities db |}.

(** The attributes of the new instance that [createStaff] returns:
    [roleId], [password] and [passwordUpdatedAt] are deleted from the copy
    of [dataValues], and no [Role] was joined. *)
Definition newStaffView (s : Staff.t) : StaffView :=
  {| v_id := Staff.id s; v_username := Staff.username s;
     v_name := Staff.name s; v_status := Staff.status s; v_Role := None |}.

Section StaffCreation.

(** Collaborators outside the sources: the password hashing, and the
    store's side of [Staff.create] (the identifier it assigns and whether
    it accepts the row). *)
Variable createHashedPassword : string -> string.
Variable new_staff_id : Store -> Z.
Variable accepts_staff : Store -> Staff.t -> bool.

(** The row that [createStaff] passes to [Staff.create], with the role
    joined through [roleId].  A new account starts in status active
    (modelled from the spec: the column default is declared in the model,
    which is not among the sources). *)
Definition staffRow (db : Store) (staffRole : Role.t)
    (username password name : string) : Staff.t :=
  {| Staff.id := new_staff_id db; Staff.username := username;
     Staff.password := createHashedPassword password; Staff.name := name;
     Staff.status := STATUS_active; Staff.Role := Some staffRole |}.

(** [createStaff], for a body that carries [username], [password] and
    [name]. *)
Definition createStaff (roles : list Role.t)
    (username password name : string) (db : Store)
  : outcome unit * Store :=
  match findStaffRole roles with
  | None => (NextErr errNoStaffRole, db)
  | Some staffRole =>
      let staff := staffRow db staffRole username password name in
      if negb (accepts_staff db staff) then
        (Throws (StoreError "Staff.create"), db)
      else (Respond 201 (BData (newStaffView staff)), add_staff staff db)
  end.

End StaffCreation.

(** ** staff.routes.js *)

(** The method of a request: the three that the router registers, [HEAD],
    and any other. *)
Inductive Method := GET | POST | PUT | HEAD | OTHER.

Definition method_eqb (a b : Method) : bool :=
  match a, b with
  | GET, GET | POST, POST | PUT, PUT | HEAD, HEAD | OTHER, OTHER => true
  | _, _ => false
  end.

(** Whether a route registered for [routeMethod] takes a request of method
    [m]: its own method, and for a [get] route also [HEAD]. *)
Definition handles (routeMethod m : Method) : bool :=
  method_eqb m routeMethod
  || (method_eqb m HEAD && method_eqb routeMethod GET).

(** The functions that the router registers. *)
Inductive Handler :=
| h_staffLogin
| h_authorize
| h_restrictTo (roles : list string)
| h_getInfo
| h_updateInfo
| h_updatePassword
| h_getAllCustomers
| h_getAllIdentities
| h_getIdentity
| h_getCustomerAccounts
| h_getCustomerTransactions
| h_updateCustomerStatus
| h_approveCustomer
| h_getCustomer.

Inductive Layer :=
| Route (m : Method) (path : string) (h : Handler)  (* router.get(path, h) *)
| Use (hs : list Handler).                          (* router.use(...hs) *)

(** The layers of the staff router, in the order of registration. *)
Definition staffRouter : list Layer :=
  [Route POST "/login" h_staffLogin;
   Use [h_authorize; h_restrictTo [ROLE_staff; ROLE_admin]];
   Route GET "/me" h_getInfo;
   Route PUT "/me" h_updateInfo;
   Route PUT "/updatePassword" h_updatePassword;
   Route GET "/customers" h_getAllCustomers;
   Route GET "/customers/identities" h_getAllIdentities;
   Route GET "/customers/identities/:idCustomer" h_getIdentity;
   Route GET "/customers/accounts" h_getCustomerAccounts;
   Route GET "/customers/transactions" h_getCustomerTransactions;
   Route POST "/customers/status" h_updateCustomerStatus;
   Route POST "/customers/approve" h_approveCustomer;
   Route GET "/customers/:id" h_getCustomer].

Section Router.

(** Path matching is the framework's: [pathMatches pattern url]. *)
Variable pathMatches : string -> string -> bool.

(** The functions that the router calls for a request, in order, as long
    as each one calls [next()]: a [use] layer takes every request, a route
    the requests of its method whose path matches. *)
Fixpoint stack (layers : list Layer) (m : Method) (url : string)
  : list Handler :=
  match layers with
  | [] => []
  | Route m' path h :: rest =>
      if handles m' m && pathMatches path url
      then h :: stack rest m url
      else stack rest m url
  | Use hs :: rest => (hs ++ stack rest m url)%list
  end.

End Router.

Definition isController (h : Handler) : bool :=
  match h with
  | h_authorize | h_restrictTo _ => false
  | _ => true
  end.

(** ** Queries and responses of the listing *)

(** The query with [page] and [limit] replaced. *)
Definition withWindow (page limit : Z) (q : ListQuery) : ListQuery :=
  {| sortBy := sortBy q; sortType := sortType q;
     page := Some page; limit := Some limit;
     q_username := q_username q; q_name := q_name q |}.

(** The [items] and [totalItems] of a listing response. *)
Definition itemsOf (o : outcome unit) : list StaffView :=
  match o with
  | Respond _ (BItems _ items) => items
  | _ => []
  end.

Definition totalOf (o : outcome unit) : nat :=
  match o with
  | Respond _ (BItems n _) => n
  | _ => 0
  end.

(** ** client/src/actions/UserActions.js *)

Module Client.

(** The actions that the thunks dispatch or return. *)
Inductive Action :=
| FETCH_USER_REQUEST
| FETCH_USER_SUCCESS (user : string)
| USER_LOGOUT
| UPDATE_USER_REQUEST
| UPDATE_USER_SUCCESS (userUpdated : string).

(** What a thunk does, in order: a dispatch, a call of [fetchApi], an
    error message on the screen, the erasure of a cookie. *)
Inductive Effect :=
| Dispatched (a : Action)
| Requested (url method : string) (body : option string)
| MessageError (text : string)
| CookieErased (key : string).

(** How a promise settles. *)
Inductive settled (A : Type) :=
| Resolved (a : A)
| Rejected (err : string).

Arguments Resolved {A} a.
Arguments Rejected {A} err.

(** The response of [fetchApi]. *)
Record Response := { data : string }.

Section Actions.

(** Collaborators outside the sources: the HTTP helper, the formatter of
    error messages and the name of the token cookie. *)
Variable fetchApi : string -> string -> option string -> settled Response.
Variable getErrorMessage : string -> string.
Variable TOKEN_KEY : string.

(** [fetchUser(type)(dispatch)] *)
Definition fetchUser (type : string) : list Effect * settled unit :=
  let url := "/" ++ type ++ "/me" in
  match fetchApi url "GET" None with
  | Resolved r =>
      ([Dispatched FETCH_USER_REQUEST; Requested url "GET" None;
        Dispatched (FETCH_USER_SUCCESS (data r))],
       Resolved tt)
  | Rejected e =>
      ([Dispatched FETCH_USER_REQUEST; Requested url "GET" None;
        MessageError (getErrorMessage e)],
       Resolved tt)
  end.

(** [login(url, body)] *)
Definition login (url body : string) : settled Response :=
  fetchApi url "POST" (Some body).

(** [register(body)] *)
Definition register (body : string) : settled Response :=
  fetchApi "/customers/register" "POST" (Some body).

(** [logout()] *)
Definition logout : list Effect * Action :=
  ([CookieErased TOKEN_KEY], USER_LOGOUT).

(** [changePassword(type, body)] *)
Definition changePassword (type body : string) : settled Response :=
  fetchApi ("/" ++ type ++ "/updatePassword") "PUT" (Some body).

(** [updateProfile(type, body)(dispatch)] *)
Definition updateProfile (type body : string)
  : list Effect * settled unit :=
  let url := "/" ++ type ++ "/me" in
  match fetchApi url "PUT" (Some body) with
  | Resolved _ =>
      ([Dispatched UPDATE_USER_REQUEST; Requested url "PUT" (Some body);
        Dispatched (UPDATE_USER_SUCCESS body)],
       Resolved tt)
  | Rejected e =>
      ([Dispatched UPDATE_USER_REQUEST; Requested url "PUT" (Some body)],
       Rejected e)
  end.

(** [getCountries(url)] *)
Definition getCountries (url : string) : settled Response :=
  fetchApi url "GET" None.

End Actions.

End Client.

(** ** More sample data *)

(** The payload of the sample without a username. *)
Definition namelessBody : Register.body :=
  {| Register.email := Some "trent@bank.example";
     Register.username := None;
     Register.password := Some "Passw0rd!";
     Register.name := Some "Trent";
     Register.dateOfBirth := Some "1990-01-02";
     Register.phoneNumber := None;
     Register.address := None;
     Register.identityNumber := Some "123456789";
     Register.registrationDate := Some "2015/06/07";
     Register.frontImage := Some [Byte.xff; Byte.xd8];
     Register.backImage := Some [Byte.xff; Byte.xd9] |}.

Definition sampleNewStaffId (db : Store) : Z :=
  Z.of_nat (List.length (staffs db)) + 1.

(** An HTTP helper that fails for every request but one. *)
Definition sampleFetch (url method : string) (body : option string)
  : Client.settled Client.Response :=
  if String.eqb url "/staffs/me" && String.eqb method "GET"
  then Client.Resolved {| Client.data := "alice" |}
  else Client.Rejected "401".

(** ** The row update of [save] *)

(** What [save] does to one row of the staff table. *)
Definition saved (staff : Staff.t) (r : Staff.t) : Staff.t :=
  if Z.eqb (Staff.id r) (Staff.id staff)
  then Staff.set_status (Staff.status staff) r else r.

(** ** Properties of the regular expressions *)

Section RegexFacts.

Variable m : bool.

Lemma execFrom_Alt (r1 r2 : re) (after before : list ascii) :
  execFrom m (Alt r1 r2) before after
  = execFrom m r1 before after || execFrom m r2 before after.
Proof.
  revert before.
  induction after as [|a rest IH]; intros before; simpl.
  - now rewrite !orb_false_r.
  - rewrite IH.
    destruct (matchAt m r1 before (a :: rest) accept),
             (matchAt m r2 before (a :: rest) accept),
             (execFrom m r1 (a :: before) rest); reflexivity.
Qed.

(** After a character that is no line terminator there is no start of a
    line, so an expression anchored by [^] cannot start there. *)
Lemma execFrom_anchored_inside (r : re) (after before : list ascii) (a : ascii) :
  dot a = true -> forallb dot after = true ->
  execFrom m (Seq Bol r) (a :: before) after = false.
Proof.
  revert before a.
  induction after as [|x rest IH]; intros before a Ha Hl.
  - simpl. unfold dot in Ha. apply negb_true_iff in Ha. rewrite Ha.
    now rewrite andb_false_r.
  - simpl in Hl. apply andb_prop in Hl as [Hx Hl].
    cbn [execFrom matchAt boundary].
    rewrite (IH (a :: before) x Hx Hl).
    unfold dot in Ha. apply negb_true_iff in Ha. rewrite Ha.
    now rewrite andb_false_r.
Qed.

(** On a value of one line an anchored expression matches at position 0
    or nowhere. *)
Lemma execFrom_anchored (r : re) (after : list ascii) :
  forallb dot after = true ->
  execFrom m (Seq Bol r) [] after = matchAt m r [] after accept.
Proof.
  intros Hl. destruct after as [|a rest].
  - simpl. now rewrite orb_false_r.
  - simpl in Hl. apply andb_prop in Hl as [Ha Hl].
    cbn [execFrom matchAt boundary].
    rewrite (execFrom_anchored_inside r rest [] a Ha Hl).
    now rewrite orb_false_r.
Qed.

(** [(?=.*[c])] on one line: some character ahead is in the class. *)
Lemma somewhere_single_line (c : cls) (after before : list ascii)
    (k : list ascii -> list ascii -> bool) :
  forallb dot after = true ->
  matchAt m (somewhere c) before after k = existsb c after && k before after.
Proof.
  intros Hl. unfold somewhere, cat. cbn [fold_right matchAt].
  f_equal. clear k. revert before.
  induction after as [|x rest IH]; intros before.
  - reflexivity.
  - simpl in Hl. apply andb_prop in Hl as [Hx Hl].
    cbn [repAt existsb hi_allows option_map Nat.pred].
    rewrite Hx, (IH Hl). cbn. now rewrite andb_true_r.
Qed.

(** [[c]{lo,}$] on one line: the whole line is in the class and is long
    enough. *)
Lemma rep_to_eol (c : cls) (after before : list ascii) (lo : nat) :
  forallb dot after = true ->
  repAt c lo None before after
        (fun b a => boundary m a && accept b a)
  = forallb c after && Nat.leb lo (List.length after).
Proof.
  revert before lo.
  induction after as [|x rest IH]; intros before lo Hl.
  - destruct lo; reflexivity.
  - simpl in Hl. apply andb_prop in Hl as [Hx Hl].
    cbn [repAt forallb hi_allows option_map List.length].
    rewrite (IH _ _ Hl).
    unfold dot in Hx. apply negb_true_iff in Hx.
    destruct lo as [|lo]; cbn [matchAt boundary Nat.pred Nat.leb].
    + rewrite Hx. btauto.
    + btauto.
Qed.

(** [[c]{n}$] on one line: the line is exactly [n] characters of the
    class. *)
Lemma rep_exact_to_eol (c : cls) (after before : list ascii) (n : nat) :
  forallb dot after = true ->
  repAt c n (Some n) before after
        (fun b a => boundary m a && accept b a)
  = forallb c after && Nat.eqb (List.length after) n.
Proof.
  revert before n.
  induction after as [|x rest IH]; intros before n Hl.
  - destruct n; reflexivity.
  - simpl in Hl. apply andb_prop in Hl as [Hx Hl].
    unfold dot in Hx. apply negb_true_iff in Hx.
    destruct n as [|n];
      cbn [repAt forallb hi_allows option_map List.length matchAt boundary
           Nat.pred Nat.eqb].
    + rewrite Hx. btauto.
    + rewrite (IH _ _ Hl). btauto.
Qed.

End RegexFacts.

(** On one line [regexPwd] is the five conditions and the alphabet. *)
Lemma regexPwd_single_line (p : string) :
  single_line p = true -> exec true regexPwd p = strong_password p.
Proof.
  unfold single_line, all_in, exec, strong_password, spec_strong_password,
    has, all_in, chars.
  generalize (list_ascii_of_string p) as l. intros l Hl.
  unfold regexPwd, cat. cbn [fold_right].
  rewrite (execFrom_anchored _ _ l Hl).
  cbn [matchAt]. rewrite (somewhere_single_line _ _ _ _ _ Hl).
  cbn [matchAt]. rewrite (somewhere_single_line _ _ _ _ _ Hl).
  cbn [matchAt]. rewrite (somewhere_single_line _ _ _ _ _ Hl).
  cbn [matchAt]. rewrite (somewhere_single_line _ _ _ _ _ Hl).
  cbn [matchAt]. rewrite (rep_to_eol true pwdChar l [] 8 Hl).
  btauto.
Qed.

(** On one line [regexIdentNum] is exactly 9 or exactly 12 digits. *)
Lemma regexIdentNum_single_line (s : string) :
  single_line s = true -> exec true regexIdentNum s = digits_9_or_12 s.
Proof.
  unfold single_line, all_in, exec, digits_9_or_12, all_in, chars.
  generalize (list_ascii_of_string s) as l. intros l Hl.
  unfold regexIdentNum, cat. cbn [fold_right].
  rewrite execFrom_Alt, !(execFrom_anchored _ _ l Hl).
  cbn [matchAt].
  rewrite !(rep_exact_to_eol true digit l [] _ Hl).
  btauto.
Qed.

(** On one line [regexDoB] is the date shape with independent
    separators. *)
Lemma regexDoB_single_line (d : string) :
  single_line d = true -> exec true regexDoB d = date_shape d.
Proof.
  unfold single_line, all_in, exec, date_shape, date_with, chars.
  generalize (list_ascii_of_string d) as l. intros l Hl.
  unfold regexDoB, cat. cbn [fold_right].
  rewrite (execFrom_anchored _ _ l Hl).
  do 10 (destruct l as [|? l];
         [cbn; repeat rewrite ?andb_false_r, ?orb_false_r; reflexivity
         |cbn [forallb] in Hl; apply andb_prop in Hl as [_ Hl]]).
  destruct l as [|x l].
  - cbn. unfold dateSep, one_of. cbn. btauto.
  - cbn [forallb] in Hl. apply andb_prop in Hl as [Hx _].
    unfold dot in Hx. apply negb_true_iff in Hx.
    cbn. rewrite Hx. btauto.
Qed.

(** [regexRegDate] is the same expression as [regexDoB]. *)
Lemma regexRegDate_single_line (d : string) :
  single_line d = true -> exec true regexRegDate d = date_shape d.
Proof. exact (regexDoB_single_line d). Qed.

(** ** The access gate *)

Lemma split_aux_head (s cur : string) :
  exists rest, Js.split_aux " " cur s = (cur ++ upToSpace s) :: rest.
Proof.
  revert cur. induction s as [|c s IH]; intros cur; simpl.
  - exists []. f_equal. induction cur; simpl; congruence.
  - destruct (Ascii.eqb c " ").
    + eexists. f_equal. induction cur; simpl; congruence.
    + destruct (IH (cur ++ String c "")) as [rest ->]. exists rest. f_equal.
      clear. induction cur; simpl; congruence.
Qed.

Lemma substring_all (s : string) : substring 0 (String.length s) s = s.
Proof. induction s; simpl; congruence. Qed.

(** [authorization.split(' ')[1]] is the text between the prefix and the
    next space. *)
Lemma bearer_token (h : string) :
  String.prefix "Bearer " h = true ->
  nth_error (Js.split " " h) 1
  = Some (upToSpace (substring 7 (String.length h - 7) h)).
Proof.
  intros H.
  do 7 (destruct h as [|? h]; [discriminate|];
        cbn [String.prefix] in H;
        match type of H with
        | (if ?d then _ else _) = true =>
            destruct d as [<-|]; [|discriminate]
        end).
  clear H. unfold Js.split. cbn.
  rewrite Nat.sub_0_r, substring_all.
  destruct (split_aux_head h "") as [rest ->]. reflexivity.
Qed.

Lemma prefix_truthy (h : string) :
  String.prefix "Bearer " h = true -> Js.truthy_field (Some h) = true.
Proof. destruct h; [discriminate|reflexivity]. Qed.

Lemma restrictTo_inRoleSet (roles : list string) (u : User) :
  restrictTo roles u = if inRoleSet roles u then Pass u else NextErr errForbidden.
Proof.
  unfold restrictTo, inRoleSet, user_Role.
  destruct u as [c|s]; [reflexivity|].
  destruct (Staff.Role s) as [r|]; [|reflexivity].
  now destruct (existsb _ roles).
Qed.

(** [authorize] followed by the role check is the ordered pipeline. *)
Lemma gate_refines (jwt_verify : string -> TokenError + Claims)
    (roles : option (list string)) (authorization : option string)
    (db : Store) :
  gate jwt_verify roles authorization db
  = match accessGate jwt_verify roles authorization db with
    | inl e => raise e
    | inr u => Pass u
    end.
Proof.
  unfold gate, authorize, accessGate, bearer, Js.startsWith.
  destruct authorization as [h|]; [|reflexivity].
  cbn [Js.to_string].
  destruct (String.prefix "Bearer " h) eqn:Hp.
  2:{ now rewrite andb_false_r. }
  rewrite (prefix_truthy h Hp), (bearer_token h Hp). cbn [andb].
  destruct (jwt_verify _) as [e|claims]; [reflexivity|].
  unfold resolve, lookup, findCustomerById, findStaffById.
  destruct (String.eqb (c_type claims) "customer").
  - destruct (find _ (customers db)) as [c|]; [|reflexivity].
    cbn [option_map andThen].
    destruct (Js.value_eqb (user_status (UCustomer c)) STATUS_deleted);
      [reflexivity|].
    destruct (Js.value_eqb (user_status (UCustomer c)) STATUS_inactive);
      [reflexivity|].
    destruct (Js.value_eqb (user_status (UCustomer c)) STATUS_blocked);
      [reflexivity|].
    cbn [andThen]. destruct roles as [rs|]; [|reflexivity].
    rewrite restrictTo_inRoleSet. now destruct (inRoleSet rs _).
  - destruct (String.eqb (c_type claims) "staff"); [|reflexivity].
    destruct (find _ (staffs db)) as [s|]; [|reflexivity].
    cbn [option_map andThen].
    destruct (Js.value_eqb (user_status (UStaff s)) STATUS_deleted);
      [reflexivity|].
    destruct (Js.value_eqb (user_status (UStaff s)) STATUS_inactive);
      [reflexivity|].
    destruct (Js.value_eqb (user_status (UStaff s)) STATUS_blocked);
      [reflexivity|].
    cbn [andThen]. destruct roles as [rs|]; [|reflexivity].
    rewrite restrictTo_inRoleSet. now destruct (inRoleSet rs _).
Qed.

Lemma httpStatus_raise (e : AuthError) :
  httpStatus (raise e) = Some (authStatus e).
Proof. now destruct e. Qed.

(** What the gate answers before it looks at the role-set. *)
Lemma gate_before_roles (jwt_verify : string -> TokenError + Claims)
    (roles : option (list string)) (authorization : option string)
    (db : Store) (token : string) (claims : Claims) :
  bearer authorization = Some token ->
  jwt_verify token = inr claims ->
  match lookup db claims with
  | None =>
      gate jwt_verify roles authorization db = NextErr errNoLongerExists
  | Some u =>
      (user_status u = STATUS_deleted ->
       gate jwt_verify roles authorization db = NextErr errNoLongerExists)
      /\ (user_status u = STATUS_inactive ->
          gate jwt_verify roles authorization db = NextErr errInactive)
      /\ (user_status u = STATUS_blocked ->
          gate jwt_verify roles authorization db = NextErr errBlocked)
  end.
Proof.
  intros Hb Hv. rewrite gate_refines. unfold accessGate, resolve.
  rewrite Hb, Hv.
  destruct (lookup db claims) as [u|]; [|reflexivity].
  repeat split; intros H; rewrite H.
  - reflexivity.
  - change (Js.value_eqb STATUS_inactive STATUS_deleted) with false.
    cbv iota. now rewrite H.
  - change (Js.value_eqb STATUS_blocked STATUS_deleted) with false.
    cbv iota. now rewrite H.
Qed.

(** C1. The access gate evaluates its checks in a fixed order and stops at
    the first failure: a missing or non-Bearer header (401), then a token
    that does not verify (401), then a principal that is missing or
    deleted (401, the same error for both), then status inactive (403) and
    blocked (403), and only then the role-set (403 Forbidden).  What a
    header, token and principal get before the role check is the same for
    every role-set: a blocked or inactive principal is turned away with its
    own error and a deleted one with the 401 of a missing one. *)
Theorem access_gate_order (jwt_verify : string -> TokenError + Claims)
    (roles : option (list string)) (authorization : option string)
    (db : Store) :
  let g := gate jwt_verify roles authorization db in
  g = match accessGate jwt_verify roles authorization db with
      | inl e => raise e
      | inr u => Pass u
      end
  /\ (forall e, accessGate jwt_verify roles authorization db = inl e ->
                httpStatus g = Some (authStatus e))
  /\ (forall token claims,
        bearer authorization = Some token ->
        jwt_verify token = inr claims ->
        match lookup db claims with
        | None => g = NextErr errNoLongerExists
        | Some u =>
            (user_status u = STATUS_deleted -> g = NextErr errNoLongerExists)
            /\ (user_status u = STATUS_inactive -> g = NextErr errInactive)
            /\ (user_status u = STATUS_blocked -> g = NextErr errBlocked)
        end).
Proof.
  cbv zeta. split; [apply gate_refines|]. split.
  - intros e He. rewrite gate_refines, He. apply httpStatus_raise.
  - apply gate_before_roles.
Qed.

(** The blocked staff of the sample store, on the staff router. *)
Lemma access_gate_order_witness :
  gate sampleVerify staffRoles (Some "Bearer staff.2") sampleDb
  = NextErr errBlocked.
Proof.
  destruct (access_gate_order sampleVerify staffRoles
              (Some "Bearer staff.2") sampleDb) as (_ & _ & H).
  specialize (H "staff.2" {| c_type := "staff"; c_id := 2 |}
                eq_refl eq_refl).
  cbn in H. apply H. reflexivity.
Defined.

(** ** The registration validations *)

Section RegistrationFacts.

Variable jwt_sign : Claims -> string.
Variable createHashedPassword : string -> string.
Variable uuidv4 : string.
Variable new_customer_id : Store -> Z.
Variable accepts_customer : Store -> Customer.t -> bool.
Variable accepts_identity : Store -> Identity.t -> bool.

Local Abbreviation register :=
  (customerRegister jwt_sign createHashedPassword uuidv4 new_customer_id
                    accepts_customer accepts_identity).
Local Abbreviation create :=
  (createRecords jwt_sign createHashedPassword uuidv4 new_customer_id
                 accepts_customer accepts_identity).

Lemma register_first_failure (b : Register.body) (db : Store) :
  register b db
  = match find (violates b) validationOrder with
    | Some v => (NextErr (report v), db)
    | None => create b db
    end.
Proof.
  unfold customerRegister, validationOrder.
  cbn [find violates report].
  destruct (matchedPwd _); [|reflexivity].
  destruct (matchedDoB _); [|reflexivity]. cbn [negb].
  destruct (Js.truthy_field (Register.identityNumber b)); [|reflexivity].
  destruct (Js.truthy_field (Register.registrationDate b)); [|reflexivity].
  destruct (present (Register.frontImage b)); [|reflexivity].
  destruct (present (Register.backImage b)); [|reflexivity].
  cbn [negb orb andb].
  destruct (matchedIdentNum _); [|reflexivity].
  destruct (matchedRegDate _); reflexivity.
Qed.

(** The creation phase never ends by [next(new AppError(...))]. *)
Lemma create_not_NextErr (b : Register.body) (db : Store) (e : AppError) :
  fst (create b db) <> NextErr e.
Proof.
  unfold createRecords.
  destruct (Register.username b); [|discriminate].
  destruct (Register.email b); [|discriminate].
  destruct (accepts_customer _ _); [|discriminate]. cbn [negb].
  destruct (accepts_identity _ _); discriminate.
Qed.

Lemma report_injective (v w : ValidationError) :
  report v = report w -> v = w.
Proof. destruct v, w; intros H; try reflexivity; discriminate H. Qed.

(** The handler reports a validation error exactly when that rule is the
    first one, in the order of the list, that the payload violates. *)
Lemma register_reports (b : Register.body) (db : Store)
    (v : ValidationError) :
  fst (register b db) = NextErr (report v)
  <-> find (violates b) validationOrder = Some v.
Proof.
  rewrite register_first_failure.
  destruct (find (violates b) validationOrder) as [w|].
  - cbn [fst]. split.
    + intros H. f_equal. apply report_injective. congruence.
    + congruence.
  - split; [|discriminate]. intros H. now apply create_not_NextErr in H.
Qed.

End RegistrationFacts.

Lemma find_ext {A} (p q : A -> bool) (l : list A) :
  (forall x, p x = q x) -> find p l = find q l.
Proof.
  intros H. induction l as [|a l IH]; [reflexivity|].
  cbn [find]. now rewrite H, IH.
Qed.

(** On a payload whose text fields hold no line terminator, each test of
    the handler decides its rule. *)
Lemma violates_single_line (b : Register.body) (v : ValidationError) :
  single_line_fields b = true -> violates b v = rule_violated b v.
Proof.
  unfold single_line_fields. intros H.
  apply andb_prop in H as [H Hreg]. apply andb_prop in H as [H Hidn].
  apply andb_prop in H as [Hpwd Hdob].
  destruct v; cbn [violates rule_violated].
  - unfold matchedPwd. now rewrite (regexPwd_single_line _ Hpwd).
  - unfold matchedDoB. now rewrite (regexDoB_single_line _ Hdob).
  - reflexivity.
  - unfold matchedIdentNum. now rewrite (regexIdentNum_single_line _ Hidn).
  - unfold matchedRegDate. now rewrite (regexRegDate_single_line _ Hreg).
Qed.

(** With the rules as the specification words them the handler does not
    always report the first rule that a payload breaks.  A password that
    meets the five conditions and holds a space, with a date of birth
    that is no date: the first rule broken is the date of birth, the
    handler reports the password.  An identity number of nine digits, a
    line feed and letters, with a registration date that is no date: the
    first rule broken is the identity number, the handler reports the
    registration date. *)
Lemma validation_order_counterexample :
  (find (spec_violates
           (mkBody (Some "Passw0rd! ok") (Some "yesterday")
                   (Some "123456789") (Some "2015/06/07")))
        validationOrder
   = Some BadDateOfBirth
   /\ fst (sampleRegister
             (mkBody (Some "Passw0rd! ok") (Some "yesterday")
                     (Some "123456789") (Some "2015/06/07"))
             sampleDb)
      = NextErr (report WeakPassword))
  /\ (find (spec_violates
              (mkBody (Some "Passw0rd!") (Some "1990-01-02")
                      (Some ("123456789" ++ String (ascii_of_nat 10) "abc"))
                      (Some "tomorrow")))
           validationOrder
      = Some BadIdentityNumber
      /\ fst (sampleRegister
                (mkBody (Some "Passw0rd!") (Some "1990-01-02")
                        (Some ("123456789"
                               ++ String (ascii_of_nat 10) "abc"))
                        (Some "tomorrow"))
                sampleDb)
         = NextErr (report BadRegistrationDate)).
Proof. repeat split; vm_compute; reflexivity. Qed.

(** C2 (amended). For a registration payload whose password, date of
    birth, identity number and registration date hold no line terminator,
    the handler reports the first rule broken in the order: (1) password
    (length at least 8, a digit, an uppercase letter, a lowercase letter, a
    symbol of [!@#$%^&*], and only letters, digits, underscores and those
    symbols), (2) date of birth (four digits, a separator, two digits, a
    separator, two digits, each separator a dash or a slash), (3) identity
    number and registration date non-empty and both images present, (4)
    identity number of exactly 9 or exactly 12 digits, (5) registration
    date of the shape of (2).  The store is left as it was, and a payload
    that breaks none of the rules reaches the creation of the records. *)
Theorem registration_validation_order
    (jwt_sign : Claims -> string) (createHashedPassword : string -> string)
    (uuidv4 : string) (new_customer_id : Store -> Z)
    (accepts_customer : Store -> Customer.t -> bool)
    (accepts_identity : Store -> Identity.t -> bool)
    (b : Register.body) (db : Store) :
  single_line_fields b = true ->
  customerRegister jwt_sign createHashedPassword uuidv4 new_customer_id
                   accepts_customer accepts_identity b db
  = match find (rule_violated b) validationOrder with
    | Some v => (NextErr (report v), db)
    | None =>
        createRecords jwt_sign createHashedPassword uuidv4 new_customer_id
                      accepts_customer accepts_identity b db
    end.
Proof.
  intros H. rewrite register_first_failure.
  now rewrite (find_ext (violates b) (rule_violated b) validationOrder
                 (fun v => violates_single_line b v H)).
Qed.

(** A payload that breaks the first, the second and the third rule is
    answered with the error of the first. *)
Lemma registration_validation_order_witness :
  sampleRegister (mkBody (Some "weak") (Some "yesterday") None None)
                 sampleDb
  = (NextErr errWeakPassword, sampleDb).
Proof.
  exact (registration_validation_order sampleSign sampleHash "0b5e"
           sampleNewId acceptAll acceptAll
           (mkBody (Some "weak") (Some "yesterday") None None) sampleDb
           eq_refl).
Defined.

(** [strong_password] spelled out. *)
Lemma strong_password_iff (p : string) :
  strong_password p = true
  <-> 8 <= List.length (chars p)
      /\ has digit p = true /\ has upper p = true
      /\ has lower p = true /\ has symbol p = true
      /\ all_in pwdChar p = true.
Proof.
  unfold strong_password, spec_strong_password.
  rewrite !andb_true_iff, Nat.leb_le. tauto.
Qed.

(** A password that meets the five conditions of the specification and
    holds a space is rejected as weak. *)
Lemma password_alphabet_counterexample :
  spec_strong_password "Passw0rd! ok" = true
  /\ fst (sampleRegister
            (mkBody (Some "Passw0rd! ok") (Some "1990-01-02")
                    (Some "123456789") (Some "2015/06/07"))
            sampleDb)
     = NextErr errWeakPassword.
Proof. split; reflexivity. Qed.

(** C5 (amended). For a candidate password without a line terminator, the
    password step rejects it with WeakPassword exactly when it fails one of:
    length at least 8, a digit, an uppercase letter, a lowercase letter, a
    symbol of [!@#$%^&*], and every character being a letter, a digit, an
    underscore or one of these symbols. *)
Theorem password_step_exact
    (jwt_sign : Claims -> string) (createHashedPassword : string -> string)
    (uuidv4 : string) (new_customer_id : Store -> Z)
    (accepts_customer : Store -> Customer.t -> bool)
    (accepts_identity : Store -> Identity.t -> bool)
    (b : Register.body) (db : Store) :
  let p := Js.to_string (Register.password b) in
  single_line p = true ->
  (fst (customerRegister jwt_sign createHashedPassword uuidv4
          new_customer_id accepts_customer accepts_identity b db)
   = NextErr errWeakPassword
   <-> ~ (8 <= List.length (chars p)
          /\ has digit p = true /\ has upper p = true
          /\ has lower p = true /\ has symbol p = true
          /\ all_in pwdChar p = true)).
Proof.
  intros p Hp.
  change errWeakPassword with (report WeakPassword).
  rewrite register_reports. unfold validationOrder. cbn [find].
  assert (Hw : violates b WeakPassword = negb (strong_password p)).
  { cbn [violates]. unfold matchedPwd. fold p.
    now rewrite (regexPwd_single_line p Hp). }
  rewrite Hw, <- strong_password_iff.
  destruct (strong_password p); cbn [negb].
  - split; [|intros H; now contradiction H].
    destruct (violates b BadDateOfBirth); [discriminate|].
    destruct (violates b IncompleteIdentity); [discriminate|].
    destruct (violates b BadIdentityNumber); [discriminate|].
    destruct (violates b BadRegistrationDate); discriminate.
  - split; [discriminate | reflexivity].
Qed.

(** Scenario B of the specification: no uppercase letter. *)
Lemma password_step_exact_witness :
  fst (sampleRegister
         (mkBody (Some "alllowercase1!") (Some "1990-01-02")
                 (Some "123456789") (Some "2015/06/07"))
         sampleDb)
  = NextErr errWeakPassword.
Proof.
  apply (password_step_exact sampleSign sampleHash "0b5e" sampleNewId
           acceptAll acceptAll
           (mkBody (Some "alllowercase1!") (Some "1990-01-02")
                   (Some "123456789") (Some "2015/06/07"))
           sampleDb).
  - reflexivity.
  - intros (_ & _ & H & _). vm_compute in H. discriminate H.
Defined.

(** A date of birth that mixes the two separators matches neither format
    of the specification and is accepted all the same: the registration
    goes through. *)
Lemma mixed_separators_counterexample :
  spec_date "2000-01/02" = false
  /\ matchedDoB (Some "2000-01/02") = true
  /\ fst (sampleRegister
            (mkBody (Some "Passw0rd!") (Some "2000-01/02")
                    (Some "123456789") (Some "2015/06-07"))
            sampleDb)
     = Respond 201 (BToken "customer.3").
Proof. repeat split. Qed.

(** C8 (amended). For values without a line terminator, the date of birth
    is rejected with BadDateOfBirth exactly when the password step passes
    and the value is not four digits, a separator, two digits, a
    separator, two digits, each separator being independently a dash or a
    slash; the registration date is rejected with BadRegistrationDate
    exactly when the four earlier steps pass and the value is not of that
    same shape. *)
Theorem date_steps_exact
    (jwt_sign : Claims -> string) (createHashedPassword : string -> string)
    (uuidv4 : string) (new_customer_id : Store -> Z)
    (accepts_customer : Store -> Customer.t -> bool)
    (accepts_identity : Store -> Identity.t -> bool)
    (b : Register.body) (db : Store) :
  let dob := Js.to_string (Register.dateOfBirth b) in
  let reg := Js.to_string (Register.registrationDate b) in
  let result :=
    fst (customerRegister jwt_sign createHashedPassword uuidv4
           new_customer_id accepts_customer accepts_identity b db) in
  single_line dob = true ->
  single_line reg = true ->
  (result = NextErr errBadDateOfBirth
   <-> violates b WeakPassword = false /\ date_shape dob = false)
  /\ (result = NextErr errBadRegistrationDate
      <-> violates b WeakPassword = false
          /\ violates b BadDateOfBirth = false
          /\ violates b IncompleteIdentity = false
          /\ violates b BadIdentityNumber = false
          /\ date_shape reg = false).
Proof.
  intros dob reg result Hdob Hreg. subst result.
  change errBadDateOfBirth with (report BadDateOfBirth).
  change errBadRegistrationDate with (report BadRegistrationDate).
  rewrite !register_reports. unfold validationOrder. cbn [find].
  assert (Hd : violates b BadDateOfBirth = negb (date_shape dob)).
  { cbn [violates]. unfold matchedDoB. fold dob.
    now rewrite (regexDoB_single_line dob Hdob). }
  assert (Hr : violates b BadRegistrationDate = negb (date_shape reg)).
  { cbn [violates]. unfold matchedRegDate. fold reg.
    now rewrite (regexRegDate_single_line reg Hreg). }
  rewrite Hd, Hr.
  destruct (violates b WeakPassword), (violates b IncompleteIdentity),
    (violates b BadIdentityNumber), (date_shape dob), (date_shape reg);
    cbn [negb]; (split; split; intros H; try discriminate H;
                 try reflexivity; try (repeat split; reflexivity);
                 try (destruct H as (? & ? & ? & ? & ?); discriminate);
                 try (destruct H as (? & ?); discriminate)).
Qed.

(** A date of birth with a one-digit month, and a registration date that
    is no date. *)
Lemma date_steps_exact_witness :
  fst (sampleRegister
         (mkBody (Some "Passw0rd!") (Some "2000-1-02")
                 (Some "123456789") (Some "2015/06/07"))
         sampleDb)
  = NextErr errBadDateOfBirth.
Proof.
  apply (date_steps_exact sampleSign sampleHash "0b5e" sampleNewId
           acceptAll acceptAll
           (mkBody (Some "Passw0rd!") (Some "2000-1-02")
                   (Some "123456789") (Some "2015/06/07"))
           sampleDb); reflexivity || (split; reflexivity).
Defined.

(** ** Creation of the customer and its identity document *)

(** The store of the sample already holds the identity number of the
    payload: the customer is created, the identity is refused, and the
    customer stays behind without an identity document. *)
Lemma registration_orphan_counterexample :
  let r := customerRegister sampleSign sampleHash "0b5e" sampleNewId
             acceptAll uniqueIdentityNumber goodBody sampleDb in
  fst r = Throws (StoreError "Identity.create")
  /\ ~ bothOrNeither sampleDb (snd r)
  /\ exists c, orphan (snd r) c /\ ~ In c (customers sampleDb).
Proof.
  cbv zeta. split; [reflexivity|]. split.
  - intros [H | (c & i & _ & _ & H & _)].
    + apply (f_equal (fun d => List.length (customers d))) in H.
      vm_compute in H. discriminate H.
    + apply (f_equal (@List.length _)) in H. rewrite length_app in H.
      vm_compute in H. discriminate H.
  - eexists. split; [split|].
    + vm_compute. right. right. left. reflexivity.
    + intros i Hi. vm_compute in Hi. destruct Hi as [<- | []].
      vm_compute. discriminate.
    + vm_compute. intros [H | [H | []]]; discriminate H.
Qed.

(** C3 (amended). For a registration that passes validation, the customer
    record is created first and the identity document second, without a
    transaction around the two: when the store refuses the customer,
    neither record exists afterwards; when it accepts both, both exist and
    the response is 201 with a token; when it accepts the customer and
    refuses the identity, the request fails and the customer record stays
    in the store without its identity document. *)
Theorem registration_creation_steps
    (jwt_sign : Claims -> string) (createHashedPassword : string -> string)
    (uuidv4 : string) (new_customer_id : Store -> Z)
    (accepts_customer : Store -> Customer.t -> bool)
    (accepts_identity : Store -> Identity.t -> bool)
    (b : Register.body) (db : Store) (username email : string) :
  find (violates b) validationOrder = None ->
  Register.username b = Some username ->
  Register.email b = Some email ->
  let r := customerRegister jwt_sign createHashedPassword uuidv4
             new_customer_id accepts_customer accepts_identity b db in
  let c := customerRow createHashedPassword uuidv4 new_customer_id b db
             username email in
  let i := identityRow b c in
  (accepts_customer db c = false ->
   r = (Throws (StoreError "Customer.create"), db))
  /\ (accepts_customer db c = true ->
      accepts_identity (add_customer c db) i = false ->
      r = (Throws (StoreError "Identity.create"), add_customer c db))
  /\ (accepts_customer db c = true ->
      accepts_identity (add_customer c db) i = true ->
      r = (Respond 201 (BToken (signToken jwt_sign "customer"
                                          (Customer.id c))),
           add_identity i (add_customer c db))).
Proof.
  intros Hv Hu He. cbv zeta.
  rewrite register_first_failure, Hv.
  unfold createRecords. rewrite Hu, He.
  repeat split; intros H1; try intros H2; rewrite H1; try rewrite H2;
    reflexivity.
Qed.

(** The payload of the sample in a store that accepts both rows. *)
Lemma registration_creation_steps_witness :
  exists token c i,
    sampleRegister goodBody sampleDb
    = (Respond 201 (BToken token), add_identity i (add_customer c sampleDb)).
Proof.
  do 3 eexists.
  apply (registration_creation_steps sampleSign sampleHash "0b5e"
           sampleNewId acceptAll acceptAll goodBody sampleDb
           "Trent" " Trent@Bank.Example "); reflexivity.
Defined.

(** ** Login *)

Lemma find_unique {A} (p : A -> bool) (l : list A) (x : A) :
  In x l -> p x = true ->
  (forall y, In y l -> p y = true -> y = x) ->
  find p l = Some x.
Proof.
  induction l as [|a l IH]; intros Hin Hp Huniq; [contradiction|].
  cbn [find]. destruct (p a) eqn:Ha.
  - f_equal. apply Huniq; [now left | exact Ha].
  - destruct Hin as [-> | Hin]; [congruence|].
    apply IH; trivial. intros y Hy. apply Huniq. now right.
Qed.

Lemma value_eqb_refl (v : Js.value) : Js.value_eqb v v = true.
Proof. destruct v; cbn; trivial; apply String.eqb_refl. Qed.

Lemma notDeleted_neq (v : Js.value) :
  notDeleted v = true -> v <> STATUS_deleted.
Proof.
  unfold notDeleted. intros H ->. rewrite value_eqb_refl in H. discriminate H.
Qed.

Lemma find_by_unique_id {A} (key : A -> Z) (l : list A) (x : A) :
  NoDup (map key l) -> In x l ->
  find (fun y => Z.eqb (key y) (key x)) l = Some x.
Proof.
  induction l as [|a l IH]; intros Hnd Hin; [contradiction|].
  cbn in Hnd. apply NoDup_cons_iff in Hnd as [Hna Hnd]. cbn [find].
  destruct Hin as [-> | Hin].
  - now rewrite Z.eqb_refl.
  - destruct (Z.eqb (key a) (key x)) eqn:E.
    + apply Z.eqb_eq in E. exfalso. apply Hna. rewrite E.
      now apply in_map.
    + now apply IH.
Qed.

Section LoginFacts.

Variable jwt_sign : Claims -> string.
Variable jwt_verify : string -> TokenError + Claims.
Variable verifyHashedPassword : string -> string -> bool.

Lemma customerLogin_cases (username password : option string) (db : Store) :
  Js.truthy_field username = true ->
  Js.truthy_field password = true ->
  customerLogin jwt_sign verifyHashedPassword username password db
  = match findCustomerByLogin db (Js.to_string username) with
    | None => NextErr errIncorrectLogin
    | Some c =>
        if verifyHashedPassword (Js.to_string password) (Customer.password c)
        then Respond 200 (BToken (signToken jwt_sign "customer"
                                            (Customer.id c)))
        else NextErr errIncorrectLogin
    end.
Proof.
  intros Hu Hp. unfold customerLogin. rewrite Hu, Hp. cbn [negb orb].
  destruct (findCustomerByLogin _ _) as [c|]; [|reflexivity].
  now destruct (verifyHashedPassword _ _).
Qed.

Lemma staffLogin_cases (username password : option string) (db : Store) :
  Js.truthy_field username = true ->
  Js.truthy_field password = true ->
  staffLogin jwt_sign verifyHashedPassword username password db
  = match findStaffByLogin db (Js.to_string username) with
    | None => NextErr errIncorrectLogin
    | Some s =>
        if verifyHashedPassword (Js.to_string password) (Staff.password s)
        then Respond 200 (BToken (signToken jwt_sign "staff" (Staff.id s)))
        else NextErr errIncorrectLogin
    end.
Proof.
  intros Hu Hp. unfold staffLogin. rewrite Hu, Hp. cbn [negb orb].
  destruct (findStaffByLogin _ _) as [s|]; [|reflexivity].
  now destruct (verifyHashedPassword _ _).
Qed.


End LoginFacts.

(** C7. A failing login where no principal matches the supplied
    username/email and a failing login where the principal exists but the
    password does not verify get the same response, 401 with the message
    "Incorrect username/email or password", for customers and for staff
    alike. *)
Theorem login_failures_indistinguishable
    (jwt_sign : Claims -> string)
    (verifyHashedPassword : string -> string -> bool)
    (db1 db2 : Store) (u1 p1 u2 p2 : option string) :
  Js.truthy_field u1 = true -> Js.truthy_field p1 = true ->
  Js.truthy_field u2 = true -> Js.truthy_field p2 = true ->
  (findCustomerByLogin db1 (Js.to_string u1) = None ->
   forall c, findCustomerByLogin db2 (Js.to_string u2) = Some c ->
     verifyHashedPassword (Js.to_string p2) (Customer.password c) = false ->
     customerLogin jwt_sign verifyHashedPassword u1 p1 db1
     = customerLogin jwt_sign verifyHashedPassword u2 p2 db2
     /\ customerLogin jwt_sign verifyHashedPassword u2 p2 db2
        = NextErr (err "Incorrect username/email or password" 401))
  /\ (findStaffByLogin db1 (Js.to_string u1) = None ->
      forall s, findStaffByLogin db2 (Js.to_string u2) = Some s ->
        verifyHashedPassword (Js.to_string p2) (Staff.password s) = false ->
        staffLogin jwt_sign verifyHashedPassword u1 p1 db1
        = staffLogin jwt_sign verifyHashedPassword u2 p2 db2
        /\ staffLogin jwt_sign verifyHashedPassword u2 p2 db2
           = NextErr (err "Incorrect username/email or password" 401)).
Proof.
  intros Hu1 Hp1 Hu2 Hp2. split.
  - intros H1 c H2 Hv.
    rewrite !customerLogin_cases, H1, H2, Hv by assumption. now split.
  - intros H1 s H2 Hv.
    rewrite !staffLogin_cases, H1, H2, Hv by assumption. now split.
Qed.

(** Scenario A of the specification, against an unknown username. *)
Lemma login_failures_indistinguishable_witness :
  customerLogin sampleSign sampleVerifyHash (Some "nobody")
                (Some "Wr0ng!pass") sampleDb
  = customerLogin sampleSign sampleVerifyHash (Some "eve")
                  (Some "Wr0ng!pass") sampleDb.
Proof.
  destruct (login_failures_indistinguishable sampleSign sampleVerifyHash
              sampleDb sampleDb (Some "nobody") (Some "Wr0ng!pass")
              (Some "eve") (Some "Wr0ng!pass")
              eq_refl eq_refl eq_refl eq_refl) as [H _].
  apply (H eq_refl eve eq_refl eq_refl).
Defined.




(** ** Staff management and the admin role *)

Lemma In_firstn {A} (n : nat) (l : list A) (x : A) :
  In x (firstn n l) -> In x l.
Proof.
  revert l. induction n as [|n IH]; intros [|a l]; cbn; try tauto.
  intros [H | H]; [now left | right; now apply IH].
Qed.

Lemma In_skipn {A} (n : nat) (l : list A) (x : A) :
  In x (skipn n l) -> In x l.
Proof.
  revert l. induction n as [|n IH]; intros [|a l]; cbn; try tauto.
  intros H. right. now apply IH.
Qed.

Lemma filter_implied {A} (p q : A -> bool) (l : list A) :
  (forall x, p x = true -> q x = true) ->
  filter p (filter q l) = filter p l.
Proof.
  intros Hpq. induction l as [|a l IH]; [reflexivity|]. cbn.
  destruct (q a) eqn:Hq; cbn.
  - now rewrite IH.
  - destruct (p a) eqn:Hp; [|exact IH].
    apply Hpq in Hp. congruence.
Qed.

Lemma find_implied {A} (p q : A -> bool) (l : list A) :
  (forall x, p x = true -> q x = true) ->
  find p (filter q l) = find p l.
Proof.
  intros Hpq. induction l as [|a l IH]; [reflexivity|]. cbn.
  destruct (q a) eqn:Hq; cbn.
  - now rewrite IH.
  - destruct (p a) eqn:Hp; [|exact IH].
    apply Hpq in Hp. congruence.
Qed.

Lemma excludeAdmin_isAdmin (s : Staff.t) :
  excludeAdmin s = true -> isAdmin s = false.
Proof.
  unfold excludeAdmin, isAdmin. destruct (Staff.Role s); [|discriminate].
  apply negb_true_iff.
Qed.

(** No query that joins through [excludeAdmin] finds an admin record
    whose identifier is its own. *)
Lemma admin_not_found (db : Store) (s : Staff.t) (rest : Staff.t -> bool) :
  In s (staffs db) -> isAdmin s = true ->
  (forall s', In s' (staffs db) -> Staff.id s' = Staff.id s -> s' = s) ->
  (forall s', rest s' = true -> Staff.id s' = Staff.id s) ->
  find (fun s' => excludeAdmin s' && rest s') (staffs db) = None.
Proof.
  intros Hin Hadm Huniq Hrest.
  destruct (find _ (staffs db)) as [s'|] eqn:Hf; [|reflexivity].
  apply find_some in Hf as [Hin' Hp].
  apply andb_prop in Hp as [Hex Hr].
  rewrite (Huniq s' Hin' (Hrest s' Hr)) in Hex.
  apply excludeAdmin_isAdmin in Hex. congruence.
Qed.

Lemma updateStaffStatus_admin (valid_staff : Staff.t -> bool) (db : Store)
    (s : Staff.t) (status : option string) :
  In s (staffs db) -> isAdmin s = true ->
  (forall s', In s' (staffs db) -> Staff.id s' = Staff.id s -> s' = s) ->
  updateStaffStatus valid_staff (Staff.id s) status db
  = (NextErr (if Js.truthy (get STATUS (Js.to_string status))
              then errCantFindStaff else errInvalidStatus), db).
Proof.
  intros Hin Hadm Huniq. unfold updateStaffStatus.
  destruct (Js.truthy _); [|reflexivity]. cbn [negb].
  rewrite (admin_not_found db s (fun s' => Z.eqb (Staff.id s') (Staff.id s))
             Hin Hadm Huniq); [reflexivity|].
  intros s'. apply Z.eqb_eq.
Qed.

Lemma known_status_truthy (name : string) :
  In name statusNames ->
  get STATUS name = Js.VString name /\ Js.truthy (get STATUS name) = true.
Proof.
  intros [<- | [<- | [<- | [<- | []]]]]; split; reflexivity.
Qed.

Section ListingFacts.

Variable sql_like : string -> string -> bool.
Variable order_by : string -> string -> list Staff.t -> list Staff.t.

(** The rows of a listing are rows of the store that pass
    [excludeAdmin]. *)
Lemma getAllStaffs_rows (q : ListQuery) (db : Store) (n : nat)
    (items : list StaffView) :
  (forall a b l x, In x (order_by a b l) -> In x l) ->
  getAllStaffs sql_like order_by q db = Respond 200 (BItems n items) ->
  forall v, In v items ->
    exists s, In s (staffs db) /\ excludeAdmin s = true /\ v = view s.
Proof.
  intros Hord H v Hv. unfold getAllStaffs in H.
  injection H as _ <-.
  apply in_map_iff in Hv as (s & <- & Hs).
  apply In_firstn, In_skipn, Hord, filter_In in Hs as [Hs Hp].
  apply andb_prop in Hp as [Hex _]. now exists s.
Qed.

Lemma getAllStaffs_withoutAdmins (q : ListQuery) (db : Store) :
  getAllStaffs sql_like order_by q db
  = getAllStaffs sql_like order_by q (withoutAdmins db).
Proof.
  unfold getAllStaffs, withoutAdmins. cbn [staffs].
  rewrite filter_implied; [reflexivity|].
  intros s Hs. apply andb_prop in Hs as [Hex _].
  now rewrite (excludeAdmin_isAdmin s Hex).
Qed.

End ListingFacts.

Lemma getStaff_withoutAdmins (id : Z) (db : Store) :
  getStaff id db = getStaff id (withoutAdmins db).
Proof.
  unfold getStaff, findStaff, withoutAdmins. cbn [staffs].
  rewrite find_implied; [reflexivity|].
  intros s Hs. apply andb_prop in Hs as [Hex _].
  now rewrite (excludeAdmin_isAdmin s Hex).
Qed.

Lemma updateStaffStatus_withoutAdmins (valid_staff : Staff.t -> bool)
    (id : Z) (status : option string) (db : Store) :
  fst (updateStaffStatus valid_staff id status db)
  = fst (updateStaffStatus valid_staff id status (withoutAdmins db)).
Proof.
  unfold updateStaffStatus, withoutAdmins. cbn [staffs].
  destruct (Js.truthy _); [|reflexivity]. cbn [negb].
  rewrite find_implied.
  - destruct (find _ (staffs db)) as [s|]; [|reflexivity].
    now destruct (valid_staff _).
  - intros s Hs. apply andb_prop in Hs as [Hex _].
    now rewrite (excludeAdmin_isAdmin s Hex).
Qed.

(** C9. For a staff record whose role is admin, the staff-management
    operations behave as if the record did not exist.  The record never
    appears in a listing of [getAllStaffs]; [getStaff] answers not-found
    for its id; [updateStaffStatus] never mutates the store for its id and
    answers not-found for every status name of the closed set (a request
    whose status name fails the validation that comes before the lookup is
    answered with the validation error, as it is for any id).  Every
    response of the three operations is the response they give on the
    store with the admin records taken out. *)
Theorem admin_hidden_from_staff_management
    (sql_like : string -> string -> bool)
    (order_by : string -> string -> list Staff.t -> list Staff.t)
    (valid_staff : Staff.t -> bool)
    (db : Store) (s : Staff.t) :
  (forall a b l x, In x (order_by a b l) -> In x l) ->
  In s (staffs db) ->
  Staff.Role s = Some {| Role.roleDescription := ROLE_admin |} ->
  (forall s', In s' (staffs db) -> Staff.id s' = Staff.id s -> s' = s) ->
  (forall q n items,
     getAllStaffs sql_like order_by q db = Respond 200 (BItems n items) ->
     forall v, In v items -> v_id v <> Staff.id s)
  /\ getStaff (Staff.id s) db = NextErr errCantFindStaff
  /\ (forall status,
        snd (updateStaffStatus valid_staff (Staff.id s) status db) = db
        /\ fst (updateStaffStatus valid_staff (Staff.id s) status db)
           = NextErr (if Js.truthy (get STATUS (Js.to_string status))
                      then errCantFindStaff else errInvalidStatus))
  /\ (forall name,
        In name statusNames ->
        updateStaffStatus valid_staff (Staff.id s) (Some name) db
        = (NextErr errCantFindStaff, db))
  /\ (forall q, getAllStaffs sql_like order_by q db
                = getAllStaffs sql_like order_by q (withoutAdmins db))
  /\ (forall id, getStaff id db = getStaff id (withoutAdmins db))
  /\ (forall id status,
        fst (updateStaffStatus valid_staff id status db)
        = fst (updateStaffStatus valid_staff id status (withoutAdmins db))).
Proof.
  intros Hord Hin Hrole Huniq.
  assert (Hadm : isAdmin s = true) by (unfold isAdmin; now rewrite Hrole).
  split.
  { intros q n items H v Hv Hid.
    destruct (getAllStaffs_rows sql_like order_by q db n items Hord H v Hv)
      as (s' & Hs' & Hex & ->).
    cbn in Hid. rewrite (Huniq s' Hs' Hid) in Hex.
    apply excludeAdmin_isAdmin in Hex. congruence. }
  split.
  { unfold getStaff, findStaff.
    rewrite (admin_not_found db s
               (fun s' => Z.eqb (Staff.id s') (Staff.id s)
                          && notDeleted (Staff.status s'))
               Hin Hadm Huniq); [reflexivity|].
    intros s' H. apply andb_prop in H as [H _]. now apply Z.eqb_eq. }
  split.
  { intros status.
    now rewrite (updateStaffStatus_admin valid_staff db s status
                   Hin Hadm Huniq). }
  split.
  { intros name Hname.
    rewrite (updateStaffStatus_admin valid_staff db s (Some name)
               Hin Hadm Huniq).
    cbn [Js.to_string].
    now rewrite (proj2 (known_status_truthy name Hname)). }
  split; [intros q; apply getAllStaffs_withoutAdmins|].
  split; [intros id; apply getStaff_withoutAdmins|].
  intros id status. apply updateStaffStatus_withoutAdmins.
Qed.

(** The admin of the sample store, with a store engine that keeps the
    order of the table. *)
Lemma admin_hidden_from_staff_management_witness :
  getStaff 3 sampleDb = NextErr errCantFindStaff
  /\ updateStaffStatus stringStatus 3 (Some "blocked") sampleDb
     = (NextErr errCantFindStaff, sampleDb).
Proof.
  destruct (admin_hidden_from_staff_management
              (fun _ _ => true) (fun _ _ l => l) stringStatus sampleDb root)
    as (_ & Hget & _ & Hupd & _).
  - intros a b l x H. exact H.
  - cbn. tauto.
  - reflexivity.
  - intros s' Hs' Hid. cbn in Hs'.
    destruct Hs' as [<- | [<- | [<- | [<- | [<- | []]]]]];
      try reflexivity; discriminate Hid.
  - split; [exact Hget|]. apply (Hupd "blocked"). cbn. tauto.
Defined.

(** ** Validation of the status name *)

(** A status name that is no own property of the enumeration and no
    property of [Object.prototype] is rejected with 400 and the store is
    left as it was. *)
Lemma updateStaffStatus_unknown_name (valid_staff : Staff.t -> bool)
    (idStaff : Z) (status : option string) (db : Store) :
  assoc (Js.to_string status) STATUS = None ->
  assoc (Js.to_string status) Object_prototype = None ->
  updateStaffStatus valid_staff idStaff status db
  = (NextErr errInvalidStatus, db).
Proof.
  intros H1 H2. unfold updateStaffStatus, get. now rewrite H1, H2.
Qed.

(** For a name of the closed set and an existing target that is no admin,
    the stored status of the target becomes exactly that value, the model
    taking the four values. *)
Lemma updateStaffStatus_known_name (valid_staff : Staff.t -> bool)
    (idStaff : Z) (name : string) (db : Store) (s : Staff.t) :
  (forall r, In (Staff.status r) (map snd STATUS) -> valid_staff r = true) ->
  In name statusNames ->
  In s (staffs db) -> Staff.id s = idStaff -> excludeAdmin s = true ->
  exists s0,
    fst (updateStaffStatus valid_staff idStaff (Some name) db)
    = Respond 200 (BData (view (Staff.set_status (Js.VString name) s0)))
    /\ forall r,
         In r (staffs (snd (updateStaffStatus valid_staff idStaff
                                              (Some name) db))) ->
         Staff.id r = idStaff -> Staff.status r = Js.VString name.
Proof.
  intros Hvalid Hname Hin Hid Hex. unfold updateStaffStatus.
  cbn [Js.to_string].
  destruct (known_status_truthy name Hname) as [Hget Htruthy].
  rewrite Htruthy, Hget. cbn [negb].
  destruct (find _ (staffs db)) as [s0|] eqn:Hf.
  - exists s0.
    rewrite Hvalid.
    2:{ cbn [Staff.status Staff.set_status map snd STATUS].
        destruct Hname as [<- | [<- | [<- | [<- | []]]]]; cbn; tauto. }
    split; [reflexivity|].
    apply find_some in Hf as [_ Hp]. apply andb_prop in Hp as [_ Hp].
    apply Z.eqb_eq in Hp.
    cbn [negb snd save staffs]. intros r Hr Hrid.
    apply in_map_iff in Hr as (r0 & <- & _).
    cbn [Staff.id Staff.set_status] in *.
    destruct (Z.eqb (Staff.id r0) (Staff.id s0)) eqn:E; [reflexivity|].
    cbn in Hrid. apply Z.eqb_neq in E. congruence.
  - exfalso. pose proof (find_none _ _ Hf s Hin) as Hn. cbv beta in Hn.
    apply Z.eqb_eq in Hid. rewrite Hex, Hid in Hn. discriminate Hn.
Qed.

(** C6. The status name [constructor] is outside the closed set, and the
    handler does not reject it with the 400 of the validation: the lookup
    [STATUS[status]] finds the property that the enumeration object
    inherits, the validation passes, and for an existing target the
    handler assigns the value and saves.  With a model that takes the
    value the response is 200 and the stored status is changed; with a
    model that refuses it the request fails at [save]. *)
Theorem updateStaffStatus_inherited_name :
  ~ In "constructor" statusNames
  /\ (forall valid_staff idStaff db,
        fst (updateStaffStatus valid_staff idStaff (Some "constructor") db)
        <> NextErr errInvalidStatus)
  /\ updateStaffStatus stringStatus 1 (Some "constructor") sampleDb
     = (Throws (StoreError "Staff.save"), sampleDb)
  /\ fst (updateStaffStatus anyStaff 1 (Some "constructor") sampleDb)
     = Respond 200
         (BData (view (Staff.set_status (Js.VObject "Object") alice)))
  /\ snd (updateStaffStatus anyStaff 1 (Some "constructor") sampleDb)
     <> sampleDb.
Proof.
  split; [|split; [|split; [|split]]].
  - cbn. intros [H | [H | [H | [H | []]]]]; discriminate H.
  - intros valid_staff idStaff db. unfold updateStaffStatus. cbn.
    destruct (find _ (staffs db)) as [s|]; [|discriminate].
    destruct (valid_staff _); discriminate.
  - reflexivity.
  - reflexivity.
  - intros H. apply (f_equal staffs) in H. vm_compute in H. discriminate H.
Qed.

(** ** The upload middleware *)

(** [compressIdentityImages] answers with no error but its own, and
    hands on a body in which both images are present and the text fields
    are those of the request. *)
Lemma compressIdentityImages_cases (sharp_jpeg80 : Buffer -> Exn + Buffer)
    (files : option Files.t) (b : Register.body) :
  match compressIdentityImages sharp_jpeg80 files b with
  | Pass b' =>
      present (Register.frontImage b') = true
      /\ present (Register.backImage b') = true
      /\ Register.password b' = Register.password b
      /\ Register.dateOfBirth b' = Register.dateOfBirth b
      /\ Register.identityNumber b' = Register.identityNumber b
      /\ Register.registrationDate b' = Register.registrationDate b
  | NextErr e => e = errNoImages
  | Throws _ => True
  | Respond _ _ => False
  end.
Proof.
  unfold compressIdentityImages.
  destruct files as [[[[|front fronts]|] [[|back backs]|]]|]; cbn;
    trivial; destruct (sharp_jpeg80 front); trivial;
    destruct (sharp_jpeg80 back); cbn; tauto.
Qed.

(** ** Scenarios of the specification on the sample store *)

(** Scenario C: an identity number of five digits. *)
Example scenario_C :
  fst (sampleRegister
         (mkBody (Some "Passw0rd!") (Some "1990-01-02") (Some "12345")
                 (Some "2015/06/07"))
         sampleDb)
  = NextErr errBadIdentityNumber.
Proof. reflexivity. Qed.

(** A payload that violates every rule reports the first one, and with
    the password repaired the second one. *)
Example several_violations :
  fst (sampleRegister (mkBody (Some "weak") (Some "yesterday") None None)
                      sampleDb)
  = NextErr errWeakPassword
  /\ fst (sampleRegister
            (mkBody (Some "Passw0rd!") (Some "yesterday") None None)
            sampleDb)
     = NextErr errBadDateOfBirth
  /\ fst (sampleRegister
            (mkBody (Some "Passw0rd!") (Some "1990-01-02") None
                    (Some "never"))
            sampleDb)
     = NextErr errIncompleteIdentity
  /\ fst (sampleRegister
            (mkBody (Some "Passw0rd!") (Some "1990-01-02") (Some "12345")
                    (Some "never"))
            sampleDb)
     = NextErr errBadIdentityNumber.
Proof. repeat split. Qed.

(** Scenario D: a staff of role staff on a route that requires admin. *)
Example scenario_D :
  gate sampleVerify (Some [ROLE_admin]) (Some "Bearer staff.1") sampleDb
  = NextErr errForbidden.
Proof. reflexivity. Qed.

(** Scenario E: the token of a deleted staff resolves as not found, 401. *)
Example scenario_E :
  gate sampleVerify staffRoles (Some "Bearer staff.4") sampleDb
  = NextErr errNoLongerExists
  /\ httpStatus (gate sampleVerify staffRoles (Some "Bearer staff.4")
                      sampleDb)
     = Some 401%Z.
Proof. split; reflexivity. Qed.

(** The flags [gm] make the anchors match at line breaks: a value with a
    line that has the shape passes the check as a whole. *)
Example multiline_value_passes :
  matchedIdentNum (Some ("123456789" ++ String (ascii_of_nat 10) "abc"))
  = true
  /\ matchedDoB (Some ("junk" ++ String (ascii_of_nat 10) "2000-01-02"))
     = true.
Proof. split; reflexivity. Qed.

(** A customer has no role: the role check of the staff router refuses
    it. *)
Example customer_on_staff_router :
  gate sampleVerify staffRoles (Some "Bearer customer.1") sampleDb
  = NextErr errForbidden.
Proof. reflexivity. Qed.

(** ** Token verification inside the gate *)

(** [authorize] makes no decision of its own about a token: what
    [jwt.verify] throws is what the request fails with. *)
Lemma authorize_forwards_token_error
    (jwt_verify : string -> TokenError + Claims)
    (authorization : option string) (db : Store) (token : string)
    (e : TokenError) :
  bearer authorization = Some token ->
  jwt_verify token = inl e ->
  authorize jwt_verify authorization db = Throws (JwtError e).
Proof.
  intros Hb Hv.
  pose proof (gate_refines jwt_verify None authorization db) as H.
  unfold gate, accessGate in H. rewrite Hb, Hv in H. cbn [raise] in H.
  destruct (authorize jwt_verify authorization db); cbn in H; congruence.
Qed.

(** ** The regular expressions on values of several lines *)

Lemma line_terminator_cases (x : ascii) :
  line_terminator x = true -> x = ascii_of_nat 10 \/ x = ascii_of_nat 13.
Proof.
  unfold line_terminator, code. intros H.
  apply orb_prop in H as [H | H]; apply Nat.eqb_eq in H;
    [left | right]; rewrite <- H; symmetry; apply ascii_nat_embedding.
Qed.

Lemma inLine_not_terminator (c : cls) (x : ascii) :
  inLine c = true -> line_terminator x = true -> c x = false.
Proof.
  unfold inLine. intros Hc Hx. apply andb_prop in Hc as [H10 H13].
  apply negb_true_iff in H10, H13.
  destruct (line_terminator_cases x Hx) as [-> | ->]; assumption.
Qed.

Lemma firstLine_idempotent (a : list ascii) :
  firstLine (firstLine a) = firstLine a.
Proof.
  induction a as [|x a IH]; [reflexivity|]. cbn.
  destruct (line_terminator x) eqn:Hx; [reflexivity|].
  cbn. now rewrite Hx, IH.
Qed.

Lemma firstLine_single_line (a : list ascii) :
  forallb dot (firstLine a) = true.
Proof.
  induction a as [|x a IH]; [reflexivity|]. cbn.
  destruct (line_terminator x) eqn:Hx; [reflexivity|].
  cbn. unfold dot at 1. now rewrite Hx, IH.
Qed.

Lemma boundary_firstLine (a : list ascii) :
  boundary true (firstLine a) = boundary true a.
Proof.
  destruct a as [|x a]; [reflexivity|]. cbn.
  destruct (line_terminator x) eqn:Hx; cbn; [reflexivity|].
  now rewrite Hx.
Qed.

Lemma repAt_lineOnly (c : cls) (k : list ascii -> list ascii -> bool) :
  inLine c = true -> lineOnly k ->
  forall a lo hi b b',
    repAt c lo hi b a k = repAt c lo hi b' (firstLine a) k.
Proof.
  intros Hc Hk.
  induction a as [|x a IH]; intros lo hi b b'.
  - cbn. destruct lo; [|reflexivity]. now rewrite (Hk b b' []).
  - cbn [repAt firstLine].
    destruct (line_terminator x) eqn:Hx.
    + rewrite (inLine_not_terminator c x Hc Hx). cbn [repAt andb].
      destruct lo; [|reflexivity].
      rewrite (Hk b b' (x :: a)). cbn [firstLine]. now rewrite Hx.
    + cbn [repAt].
      rewrite (IH (Nat.pred lo) (option_map Nat.pred hi) (x :: b) (x :: b')).
      destruct lo; [|reflexivity].
      rewrite (Hk b b' (x :: a)). cbn [firstLine]. now rewrite Hx.
Qed.

(** A line-local expression with a line-only continuation is a line-only
    continuation. *)
Lemma matchAt_lineOnly (r : re) :
  lineLocal r = true ->
  forall k, lineOnly k -> lineOnly (fun b a => matchAt true r b a k).
Proof.
  induction r as [| | |c|c lo hi|r1 IH1|r1 IH1 r2 IH2|r1 IH1 r2 IH2];
    intros Hr k Hk b b' a; cbn [matchAt lineLocal] in *.
  - apply Hk.
  - discriminate Hr.
  - now rewrite boundary_firstLine, (Hk b b' a).
  - destruct a as [|x a]; [reflexivity|]. cbn [firstLine].
    destruct (line_terminator x) eqn:Hx.
    + now rewrite (inLine_not_terminator c x Hr Hx).
    + now rewrite (Hk (x :: b) (x :: b') a).
  - now apply repAt_lineOnly.
  - rewrite (IH1 Hr (fun _ _ => true) (fun _ _ _ => eq_refl) b b' a).
    now rewrite (Hk b b' a).
  - apply andb_prop in Hr as [H1 H2].
    exact (IH1 H1 _ (IH2 H2 k Hk) b b' a).
  - apply andb_prop in Hr as [H1 H2].
    now rewrite (IH1 H1 k Hk b b' a), (IH2 H2 k Hk b b' a).
Qed.

Lemma lines_nonempty (a : list ascii) : lines a <> [].
Proof.
  destruct a as [|x a]; cbn; [discriminate|].
  destruct (line_terminator x); [discriminate|].
  destruct (lines a); discriminate.
Qed.

Lemma lines_head (a : list ascii) : hd [] (lines a) = firstLine a.
Proof.
  induction a as [|x a IH]; [reflexivity|]. cbn.
  destruct (line_terminator x); [reflexivity|].
  destruct (lines a) as [|l ls] eqn:E; cbn in *; now rewrite <- IH.
Qed.

Lemma lines_single_line (a : list ascii) (l : list ascii) :
  In l (lines a) -> forallb dot l = true.
Proof.
  revert l. induction a as [|x a IH]; intros l; cbn.
  - intros [<- | []]. reflexivity.
  - destruct (line_terminator x) eqn:Hx.
    + intros [<- | H]; [reflexivity | now apply IH].
    + destruct (lines a) as [|l0 ls] eqn:E.
      * intros [<- | []]. cbn. unfold dot. now rewrite Hx.
      * intros [<- | H].
        -- cbn. unfold dot at 1. rewrite Hx. apply IH. now left.
        -- apply IH. now right.
Qed.

(** An anchored line-local expression matches a value when it matches one
    of its lines from the start of that line. *)
Lemma execFrom_lines (r : re) :
  lineLocal r = true ->
  forall a before,
    execFrom true (Seq Bol r) before a
    = if boundary true before
      then existsb (fun l => matchAt true r [] l accept) (lines a)
      else existsb (fun l => matchAt true r [] l accept) (tl (lines a)).
Proof.
  intros Hr.
  assert (Hloc : forall b a,
             matchAt true r b a accept
             = matchAt true r [] (firstLine a) accept).
  { intros b a.
    exact (matchAt_lineOnly r Hr accept (fun _ _ _ => eq_refl) b [] a). }
  induction a as [|x a IH]; intros before.
  - cbn. rewrite (Hloc before []).
    destruct (boundary true before); cbn; btauto.
  - cbn [execFrom matchAt]. rewrite (IH (x :: before)), (Hloc before (x :: a)).
    cbn [boundary andb firstLine lines].
    destruct (line_terminator x) eqn:Hx.
    + cbn [existsb tl]. destruct (boundary true before); cbn; btauto.
    + pose proof (lines_head a) as Hh.
      destruct (lines a) as [|l ls] eqn:E.
      * now destruct (lines_nonempty a).
      * cbn in Hh. subst l. cbn [existsb tl].
        destruct (boundary true before); cbn; btauto.
Qed.

Lemma existsb_map {A B} (f : A -> B) (p : B -> bool) (l : list A) :
  existsb p (map f l) = existsb (fun x => p (f x)) l.
Proof. induction l as [|a l IH]; cbn; [reflexivity | now rewrite IH]. Qed.

Lemma existsb_ext_in {A} (p q : A -> bool) (l : list A) :
  (forall x, In x l -> p x = q x) -> existsb p l = existsb q l.
Proof.
  induction l as [|a l IH]; intros H; [reflexivity|]. cbn.
  rewrite (H a (or_introl eq_refl)), IH; [reflexivity|].
  intros x Hx. apply H. now right.
Qed.

(** The transfer from one line to the lines of a value: if, on values of
    one line, an anchored line-local expression accepts what [p] accepts,
    then it accepts a value exactly when [p] accepts one of its lines. *)
Lemma exec_by_lines (r : re) (p : string -> bool) (s : string) :
  lineLocal r = true ->
  (forall v, single_line v = true -> exec true (Seq Bol r) v = p v) ->
  exec true (Seq Bol r) s = existsb p (linesOf s).
Proof.
  intros Hr Hp. unfold exec, linesOf.
  rewrite (execFrom_lines r Hr). cbn [boundary].
  rewrite existsb_map. apply existsb_ext_in. intros l Hl.
  pose proof (lines_single_line _ l Hl) as Hsl.
  rewrite <- (Hp (string_of_list_ascii l)).
  - unfold exec. rewrite list_ascii_of_string_of_list_ascii.
    now rewrite (execFrom_anchored true r l Hsl).
  - unfold single_line, all_in, chars.
    now rewrite list_ascii_of_string_of_list_ascii.
Qed.

Lemma existsb_orb {A} (p q : A -> bool) (l : list A) :
  existsb p l || existsb q l = existsb (fun x => p x || q x) l.
Proof.
  induction l as [|a l IH]; [reflexivity|]. cbn. rewrite <- IH. btauto.
Qed.

(** A value of one line is its own only line. *)
Lemma linesOf_single_line (s : string) :
  single_line s = true -> linesOf s = [s].
Proof.
  unfold single_line, all_in, linesOf, chars. intros H.
  assert (Hl : forall l, forallb dot l = true -> lines l = [l]).
  { induction l as [|x l IH]; [reflexivity|]. cbn.
    intros Hx. apply andb_prop in Hx as [Hx Hl].
    unfold dot in Hx. apply negb_true_iff in Hx. now rewrite Hx, (IH Hl). }
  rewrite (Hl _ H). cbn. now rewrite string_of_list_ascii_of_string.
Qed.

Lemma regexPwd_by_lines (s : string) :
  exec true regexPwd s = existsb strong_password (linesOf s).
Proof.
  unfold regexPwd, cat. cbn [fold_right].
  apply exec_by_lines; [reflexivity|].
  exact regexPwd_single_line.
Qed.

Lemma regexDoB_by_lines (s : string) :
  exec true regexDoB s = existsb date_shape (linesOf s).
Proof.
  unfold regexDoB, cat. cbn [fold_right].
  apply exec_by_lines; [reflexivity|].
  exact regexDoB_single_line.
Qed.

Lemma regexIdentNum_by_lines (s : string) :
  exec true regexIdentNum s = existsb digits_9_or_12 (linesOf s).
Proof.
  unfold regexIdentNum, cat, exec. cbn [fold_right].
  rewrite execFrom_Alt.
  change (exec true (Seq Bol (Seq (Rep digit 9 (Some 9)) (Seq Eol Eps))) s
          || exec true (Seq Bol (Seq (Rep digit 12 (Some 12)) (Seq Eol Eps))) s
          = existsb digits_9_or_12 (linesOf s)).
  rewrite (exec_by_lines (Seq (Rep digit 9 (Some 9)) (Seq Eol Eps))
             (fun v => all_in digit v
                       && Nat.eqb (List.length (chars v)) 9) s eq_refl),
          (exec_by_lines (Seq (Rep digit 12 (Some 12)) (Seq Eol Eps))
             (fun v => all_in digit v
                       && Nat.eqb (List.length (chars v)) 12) s eq_refl).
  - rewrite existsb_orb. apply existsb_ext_in. intros v _.
    unfold digits_9_or_12. btauto.
  - intros v Hv. unfold exec. rewrite (execFrom_anchored _ _ _ Hv).
    cbn [matchAt]. now rewrite (rep_exact_to_eol true digit _ [] 12 Hv).
  - intros v Hv. unfold exec. rewrite (execFrom_anchored _ _ _ Hv).
    cbn [matchAt]. now rewrite (rep_exact_to_eol true digit _ [] 9 Hv).
Qed.

(** The first rule violated, rule by rule. *)
Lemma first_violation (b : Register.body) :
  (find (violates b) validationOrder = Some WeakPassword
   <-> violates b WeakPassword = true)
  /\ (find (violates b) validationOrder = Some BadDateOfBirth
      <-> violates b WeakPassword = false
          /\ violates b BadDateOfBirth = true)
  /\ (find (violates b) validationOrder = Some IncompleteIdentity
      <-> violates b WeakPassword = false
          /\ violates b BadDateOfBirth = false
          /\ violates b IncompleteIdentity = true)
  /\ (find (violates b) validationOrder = Some BadIdentityNumber
      <-> violates b WeakPassword = false
          /\ violates b BadDateOfBirth = false
          /\ violates b IncompleteIdentity = false
          /\ violates b BadIdentityNumber = true)
  /\ (find (violates b) validationOrder = Some BadRegistrationDate
      <-> violates b WeakPassword = false
          /\ violates b BadDateOfBirth = false
          /\ violates b IncompleteIdentity = false
          /\ violates b BadIdentityNumber = false
          /\ violates b BadRegistrationDate = true).
Proof.
  unfold validationOrder. cbn [find].
  destruct (violates b WeakPassword), (violates b BadDateOfBirth),
    (violates b IncompleteIdentity), (violates b BadIdentityNumber),
    (violates b BadRegistrationDate);
    repeat split; intros; try discriminate; intuition congruence.
Qed.

(** X1. For a payload whose password consists of code units below 256,
    where the line terminators are the line feed and the carriage return
    and the lines are the runs between them: the handler answers with the
    weak-password error exactly when no line of the password meets the
    password rule (length at least 8, a digit, an uppercase letter, a
    lowercase letter, a symbol of [!@#$%^&*], and only letters, digits,
    underscores and those symbols).  Because of the [m] flag one such line
    lets the whole value pass. *)
Theorem password_step_by_lines
    (jwt_sign : Claims -> string) (createHashedPassword : string -> string)
    (uuidv4 : string) (new_customer_id : Store -> Z)
    (accepts_customer : Store -> Customer.t -> bool)
    (accepts_identity : Store -> Identity.t -> bool)
    (b : Register.body) (db : Store) :
  fst (customerRegister jwt_sign createHashedPassword uuidv4
         new_customer_id accepts_customer accepts_identity b db)
  = NextErr errWeakPassword
  <-> existsb strong_password
        (linesOf (Js.to_string (Register.password b))) = false.
Proof.
  change errWeakPassword with (report WeakPassword).
  rewrite register_reports, (proj1 (first_violation b)).
  cbn [violates]. unfold matchedPwd. rewrite regexPwd_by_lines.
  apply negb_true_iff.
Qed.

(** X2. For a payload whose identity number consists of code units
    below 256, the lines being the runs between line feeds and carriage
    returns: the registration is refused with the identity-number error
    exactly when the three earlier steps pass and no line of the identity
    number is exactly 9 or exactly 12 digits; for an identity number of one
    line, exactly when the value itself is not. *)
Theorem identity_number_step_exact
    (jwt_sign : Claims -> string) (createHashedPassword : string -> string)
    (uuidv4 : string) (new_customer_id : Store -> Z)
    (accepts_customer : Store -> Customer.t -> bool)
    (accepts_identity : Store -> Identity.t -> bool)
    (b : Register.body) (db : Store) :
  let idn := Js.to_string (Register.identityNumber b) in
  let result :=
    fst (customerRegister jwt_sign createHashedPassword uuidv4
           new_customer_id accepts_customer accepts_identity b db) in
  (result = NextErr errBadIdentityNumber
   <-> violates b WeakPassword = false
       /\ violates b BadDateOfBirth = false
       /\ violates b IncompleteIdentity = false
       /\ existsb digits_9_or_12 (linesOf idn) = false)
  /\ (single_line idn = true ->
      existsb digits_9_or_12 (linesOf idn) = digits_9_or_12 idn).
Proof.
  cbv zeta. split.
  - change errBadIdentityNumber with (report BadIdentityNumber).
    rewrite register_reports.
    rewrite (proj1 (proj2 (proj2 (proj2 (first_violation b))))).
    cbn [violates]. unfold matchedIdentNum. rewrite regexIdentNum_by_lines.
    now rewrite negb_true_iff.
  - intros H. rewrite (linesOf_single_line _ H). cbn. btauto.
Qed.

(** X3. For a payload whose two dates consist of code units below 256,
    the lines being the runs between line feeds and carriage returns: the
    date of birth is refused exactly when the password step passes and no
    line of it has the date shape, and the registration date exactly when
    the four earlier steps pass and no line of it has the date shape. *)
Theorem date_steps_by_lines
    (jwt_sign : Claims -> string) (createHashedPassword : string -> string)
    (uuidv4 : string) (new_customer_id : Store -> Z)
    (accepts_customer : Store -> Customer.t -> bool)
    (accepts_identity : Store -> Identity.t -> bool)
    (b : Register.body) (db : Store) :
  let result :=
    fst (customerRegister jwt_sign createHashedPassword uuidv4
           new_customer_id accepts_customer accepts_identity b db) in
  (result = NextErr errBadDateOfBirth
   <-> violates b WeakPassword = false
       /\ existsb date_shape
            (linesOf (Js.to_string (Register.dateOfBirth b))) = false)
  /\ (result = NextErr errBadRegistrationDate
      <-> violates b WeakPassword = false
          /\ violates b BadDateOfBirth = false
          /\ violates b IncompleteIdentity = false
          /\ violates b BadIdentityNumber = false
          /\ existsb date_shape
               (linesOf (Js.to_string (Register.registrationDate b)))
             = false).
Proof.
  cbv zeta.
  change errBadDateOfBirth with (report BadDateOfBirth).
  change errBadRegistrationDate with (report BadRegistrationDate).
  rewrite !register_reports.
  rewrite (proj1 (proj2 (first_violation b))).
  rewrite (proj2 (proj2 (proj2 (proj2 (first_violation b))))).
  split.
  - cbn [violates]. unfold matchedDoB. rewrite regexDoB_by_lines.
    now rewrite negb_true_iff.
  - assert (Hr : violates b BadRegistrationDate
                 = negb (existsb date_shape
                           (linesOf (Js.to_string
                                       (Register.registrationDate b))))).
    { cbn [violates]. unfold matchedRegDate, regexRegDate.
      now rewrite <- regexDoB_by_lines. }
    now rewrite Hr, negb_true_iff.
Qed.

(** ** Registration: missing fields, the store, the upload and the login *)

Section RegistrationMore.

Variable jwt_sign : Claims -> string.
Variable createHashedPassword : string -> string.
Variable uuidv4 : string.
Variable new_customer_id : Store -> Z.
Variable accepts_customer : Store -> Customer.t -> bool.
Variable accepts_identity : Store -> Identity.t -> bool.

Local Abbreviation register :=
  (customerRegister jwt_sign createHashedPassword uuidv4 new_customer_id
                    accepts_customer accepts_identity).
Local Abbreviation create :=
  (createRecords jwt_sign createHashedPassword uuidv4 new_customer_id
                 accepts_customer accepts_identity).

(** What the creation phase does to the store and answers, case by
    case. *)
Lemma create_cases (b : Register.body) (db : Store) :
  (exists e, create b db = (Throws e, db))
  \/ (exists u e,
        Register.username b = Some u /\ Register.email b = Some e
        /\ let c := customerRow createHashedPassword uuidv4 new_customer_id
                      b db u e in
           create b db
           = (Throws (StoreError "Identity.create"), add_customer c db)
           \/ create b db
              = (Respond 201 (BToken (signToken jwt_sign "customer"
                                                (Customer.id c))),
                 add_identity (identityRow b c) (add_customer c db))).
Proof.
  unfold createRecords.
  destruct (Register.username b) as [u|]; [|left; eexists; reflexivity].
  destruct (Register.email b) as [e|]; [|left; eexists; reflexivity].
  destruct (accepts_customer _ _); [|left; eexists; reflexivity].
  right. exists u, e. repeat split. cbv zeta. cbn [negb].
  destruct (accepts_identity _ _); [right | left]; reflexivity.
Qed.

Lemma matchedPwd_truthy (f : option string) :
  matchedPwd f = true -> Js.truthy_field f = true.
Proof.
  destruct f as [[|c s]|]; [discriminate | reflexivity | discriminate].
Qed.

End RegistrationMore.

Lemma find_app_last {A} (p : A -> bool) (l : list A) (x : A) :
  find p l = None -> p x = true -> find p (l ++ [x]) = Some x.
Proof.
  induction l as [|a l IH]; cbn; intros Hn Hx.
  - now rewrite Hx.
  - destruct (p a); [discriminate|]. now apply IH.
Qed.

(** X4. A payload that passes the five validations and lacks the username
    or the email is not answered with a validation error: the handler
    throws on [username.trim()] or [email.trim()], before it touches the
    store. *)
Theorem registration_without_name_throws
    (jwt_sign : Claims -> string) (createHashedPassword : string -> string)
    (uuidv4 : string) (new_customer_id : Store -> Z)
    (accepts_customer : Store -> Customer.t -> bool)
    (accepts_identity : Store -> Identity.t -> bool)
    (b : Register.body) (db : Store) :
  find (violates b) validationOrder = None ->
  Register.username b = None \/ Register.email b = None ->
  exists what,
    customerRegister jwt_sign createHashedPassword uuidv4 new_customer_id
                     accepts_customer accepts_identity b db
    = (Throws (TypeError what), db).
Proof.
  intros Hv H. rewrite register_first_failure, Hv. unfold createRecords.
  destruct (Register.username b) as [u|].
  - destruct H as [H | H]; [discriminate|]. rewrite H.
    eexists. reflexivity.
  - eexists. reflexivity.
Qed.

(** The sample payload without its username. *)
Lemma registration_without_name_throws_witness :
  exists what,
    sampleRegister namelessBody sampleDb
    = (Throws (TypeError what), sampleDb).
Proof.
  apply (registration_without_name_throws sampleSign sampleHash "0b5e"
           sampleNewId acceptAll acceptAll namelessBody sampleDb).
  - reflexivity.
  - left. reflexivity.
Defined.

(** X5. Whatever the payload and whatever the store answers, a
    registration only appends: the staff table and every existing customer
    and identity stay as they were, at most one customer and at most one
    identity are added, an identity only together with its customer and
    pointing to it, and the response is 201 exactly when the identity was
    added. *)
Theorem registration_only_appends
    (jwt_sign : Claims -> string) (createHashedPassword : string -> string)
    (uuidv4 : string) (new_customer_id : Store -> Z)
    (accepts_customer : Store -> Customer.t -> bool)
    (accepts_identity : Store -> Identity.t -> bool)
    (b : Register.body) (db : Store) :
  let r := customerRegister jwt_sign createHashedPassword uuidv4
             new_customer_id accepts_customer accepts_identity b db in
  exists cs ids,
    customers (snd r) = (customers db ++ cs)%list
    /\ identities (snd r) = (identities db ++ ids)%list
    /\ staffs (snd r) = staffs db
    /\ List.length ids <= List.length cs <= 1
    /\ (forall c i, In c cs -> In i ids ->
                    Identity.customerId i = Customer.id c)
    /\ ((exists token, fst r = Respond 201 (BToken token))
        <-> List.length ids = 1).
Proof.
  cbv zeta. rewrite register_first_failure.
  destruct (find (violates b) validationOrder) as [v|].
  { exists [], []. cbn. rewrite !app_nil_r.
    repeat split; try lia; try tauto; try discriminate.
    intros (t & H). discriminate H. }
  destruct (create_cases jwt_sign createHashedPassword uuidv4
              new_customer_id accepts_customer accepts_identity b db)
    as [(e & ->) | (u & e & _ & _ & [-> | ->])].
  - exists [], []. cbn. rewrite !app_nil_r.
    repeat split; try lia; try tauto; try discriminate.
    intros (t & H). discriminate H.
  - eexists [_], []. cbn. rewrite app_nil_r.
    repeat split; try lia; try tauto; try discriminate.
    intros (t & H). discriminate H.
  - eexists [_], [_]. cbn.
    repeat split; try lia.
    + intros c i [<- | []] [<- | []]. reflexivity.
    + eexists. reflexivity.
Qed.

(** X6. After a registration answered with 201, the new customer can log
    in with the trimmed, lower-cased username or email and the password of
    the payload, and gets a token for the identifier that the registration
    token carries; this holds when hashing and verification agree and no
    earlier customer that is not deleted answers to that name. *)
Theorem register_then_login
    (jwt_sign : Claims -> string) (createHashedPassword : string -> string)
    (uuidv4 : string) (new_customer_id : Store -> Z)
    (accepts_customer : Store -> Customer.t -> bool)
    (accepts_identity : Store -> Identity.t -> bool)
    (verifyHashedPassword : string -> string -> bool)
    (b : Register.body) (db db' : Store) (token u e : string) :
  (forall p, verifyHashedPassword p (createHashedPassword p) = true) ->
  customerRegister jwt_sign createHashedPassword uuidv4 new_customer_id
                   accepts_customer accepts_identity b db
  = (Respond 201 (BToken token), db') ->
  Register.username b = Some u ->
  Register.email b = Some e ->
  forall name,
    name = Js.toLowerCase (Js.trim u) \/ name = Js.toLowerCase (Js.trim e) ->
    name <> "" ->
    findCustomerByLogin db name = None ->
    token = signToken jwt_sign "customer" (new_customer_id db)
    /\ customerLogin jwt_sign verifyHashedPassword (Some name)
                     (Register.password b) db'
       = Respond 200 (BToken token).
Proof.
  intros Hhash Hreg Hu He name Hname Hne Hfree.
  rewrite register_first_failure in Hreg.
  destruct (find (violates b) validationOrder) as [v|] eqn:Hv;
    [discriminate Hreg|].
  assert (Hpwd : matchedPwd (Register.password b) = true).
  { unfold validationOrder in Hv. cbn [find violates] in Hv.
    destruct (matchedPwd (Register.password b)); [reflexivity|].
    discriminate Hv. }
  unfold createRecords in Hreg. rewrite Hu, He in Hreg.
  destruct (accepts_customer _ _); [|discriminate Hreg]. cbn [negb] in Hreg.
  destruct (accepts_identity _ _); [|discriminate Hreg]. cbn [negb] in Hreg.
  injection Hreg as <- <-. split; [reflexivity|].
  rewrite customerLogin_cases.
  2:{ cbn. destruct name; [now contradiction Hne | reflexivity]. }
  2:{ now apply matchedPwd_truthy. }
  cbn [Js.to_string].
  unfold findCustomerByLogin in *. cbn [customers add_identity add_customer].
  rewrite (find_app_last _ _ _ Hfree).
  - cbn [Customer.password customerRow Customer.id]. now rewrite Hhash.
  - cbn [Customer.username Customer.email Customer.status customerRow].
    replace (notDeleted STATUS_active) with true by reflexivity.
    rewrite andb_true_r.
    destruct Hname as [-> | ->]; rewrite String.eqb_refl;
      [reflexivity | apply orb_true_r].
Qed.

(** The payload of the sample, registered and then logged in by its
    e-mail address. *)
Lemma register_then_login_witness :
  customerLogin sampleSign sampleVerifyHash (Some "trent@bank.example")
                (Some "Passw0rd!")
                (snd (sampleRegister goodBody sampleDb))
  = Respond 200 (BToken "customer.3").
Proof.
  apply (register_then_login sampleSign sampleHash "0b5e" sampleNewId
           acceptAll acceptAll sampleVerifyHash goodBody sampleDb
           (snd (sampleRegister goodBody sampleDb)) "customer.3"
           "Trent" " Trent@Bank.Example ").
  - intros p. unfold sampleVerifyHash. apply String.eqb_refl.
  - reflexivity.
  - reflexivity.
  - reflexivity.
  - right. reflexivity.
  - discriminate.
  - reflexivity.
Defined.

(** X7. [compressIdentityImages] passes a request on only when
    [req.files] holds both fields, each with a first file that the encoder
    accepts; the body handed on carries the two re-encoded buffers, so the
    completeness step of [customerRegister] can then fail only for the
    identity number or the registration date, every other test of the
    handler is as on the body of the request, and the identity row stores
    the re-encoded buffers.  It answers with its own 400 only when
    [req.files] exists and lacks one of the two fields.  Otherwise it
    throws: a [TypeError] for an [undefined] [req.files] or an empty array
    of files, or what the encoder throws for the front image or, the front
    image accepted, for the back image.  It never responds itself. *)
Theorem compress_then_register
    (sharp_jpeg80 : Buffer -> Exn + Buffer)
    (files : option Files.t) (b : Register.body) :
  match compressIdentityImages sharp_jpeg80 files b with
  | Pass b' =>
      (exists fs front fronts back backs front' back',
         files = Some fs
         /\ Files.frontImage fs = Some (front :: fronts)
         /\ Files.backImage fs = Some (back :: backs)
         /\ sharp_jpeg80 front = inr front'
         /\ sharp_jpeg80 back = inr back'
         /\ b' = Register.set_images front' back' b
         /\ forall c,
              Identity.frontImage (identityRow b' c) = front'
              /\ Identity.backImage (identityRow b' c) = back')
      /\ violates b' IncompleteIdentity
         = negb (Js.truthy_field (Register.identityNumber b)
                 && Js.truthy_field (Register.registrationDate b))
      /\ (forall v, v <> IncompleteIdentity -> violates b' v = violates b v)
  | NextErr e =>
      e = errNoImages
      /\ exists fs,
           files = Some fs
           /\ (Files.frontImage fs = None \/ Files.backImage fs = None)
  | Throws e =>
      (files = None /\ e = TypeError "req.files.frontImage")
      \/ exists fs fronts backs,
           files = Some fs
           /\ Files.frontImage fs = Some fronts
           /\ Files.backImage fs = Some backs
           /\ ((fronts = []
                /\ e = TypeError "req.files.frontImage[0].buffer")
               \/ exists front rest,
                    fronts = front :: rest
                    /\ (sharp_jpeg80 front = inl e
                        \/ exists front',
                             sharp_jpeg80 front = inr front'
                             /\ ((backs = []
                                  /\ e = TypeError
                                           "req.files.backImage[0].buffer")
                                 \/ exists back rest',
                                      backs = back :: rest'
                                      /\ sharp_jpeg80 back = inl e)))
  | Respond _ _ => False
  end.
Proof.
  unfold compressIdentityImages.
  destruct files as [[fi bi]|]; [|left; now split].
  cbn [Files.frontImage Files.backImage].
  destruct fi as [fronts|].
  2:{ split; [reflexivity|]. eexists. split; [reflexivity|]. now left. }
  destruct bi as [backs|].
  2:{ split; [reflexivity|]. eexists. split; [reflexivity|]. now right. }
  destruct fronts as [|front fronts].
  { right. eexists _, _, _. repeat split. left. now split. }
  destruct (sharp_jpeg80 front) as [e|front'] eqn:Hf.
  { right. eexists _, _, _. repeat split. right.
    exists front, fronts. split; [reflexivity|]. now left. }
  destruct backs as [|back backs].
  { right. eexists _, _, _. repeat split. right.
    exists front, fronts. split; [reflexivity|]. right.
    exists front'. split; [exact Hf|]. left. now split. }
  destruct (sharp_jpeg80 back) as [e|back'] eqn:Hb.
  { right. eexists _, _, _. repeat split. right.
    exists front, fronts. split; [reflexivity|]. right.
    exists front'. split; [exact Hf|]. right.
    exists back, backs. now split. }
  split; [|split].
  - eexists _, front, fronts, back, backs, front', back'.
    repeat split; trivial.
  - cbn. now rewrite !andb_true_r.
  - intros v Hv. destruct v; try reflexivity. now contradiction Hv.
Qed.

(** ** The gate: what a pass means, and what of the header counts *)

Lemma upToSpace_app (t rest : string) :
  upToSpace (t ++ " " ++ rest) = upToSpace t.
Proof.
  induction t as [|c t IH]; [reflexivity|]. cbn in *.
  destruct (Ascii.eqb c " "); [reflexivity | now rewrite IH].
Qed.

Lemma upToSpace_idempotent (t : string) :
  upToSpace (upToSpace t) = upToSpace t.
Proof.
  induction t as [|c t IH]; [reflexivity|]. cbn.
  destruct (Ascii.eqb c " ") eqn:E; [reflexivity|]. cbn. now rewrite E, IH.
Qed.

Lemma bearer_prefixed (t : string) :
  bearer (Some ("Bearer " ++ t)) = Some (upToSpace t).
Proof.
  unfold bearer. cbn.
  replace (String.prefix "" t) with true by now destruct t.
  now rewrite Nat.sub_0_r, substring_all.
Qed.

(** The gate reads the header through [bearer] only. *)
Lemma gate_header (jwt_verify : string -> TokenError + Claims)
    (roles : option (list string)) (h1 h2 : option string) (db : Store) :
  bearer h1 = bearer h2 ->
  gate jwt_verify roles h1 db = gate jwt_verify roles h2 db.
Proof.
  intros H. rewrite !gate_refines. unfold accessGate. now rewrite H.
Qed.

Lemma lookup_sound (db : Store) (claims : Claims) (u : User) :
  lookup db claims = Some u ->
  match u with
  | UCustomer c =>
      c_type claims = "customer" /\ In c (customers db)
      /\ Customer.id c = c_id claims
  | UStaff s =>
      c_type claims = "staff" /\ In s (staffs db)
      /\ Staff.id s = c_id claims
  end.
Proof.
  unfold lookup.
  destruct (String.eqb (c_type claims) "customer") eqn:Ec.
  - destruct (find _ (customers db)) as [c|] eqn:Hf; [|discriminate].
    intros [= <-]. apply find_some in Hf as [Hin Hid].
    apply String.eqb_eq in Ec. apply Z.eqb_eq in Hid. auto.
  - destruct (String.eqb (c_type claims) "staff") eqn:Es; [|discriminate].
    destruct (find _ (staffs db)) as [s|] eqn:Hf; [|discriminate].
    intros [= <-]. apply find_some in Hf as [Hin Hid].
    apply String.eqb_eq in Es. apply Z.eqb_eq in Hid. auto.
Qed.

(** X8. When the gate lets a request through, the header carried a token
    that verified, the principal attached to the request is the record of
    the store that the claims of the token name, by type and identifier,
    its status is none of deleted, inactive and blocked, and, on a route
    with a role-set, it is a staff whose role description is in the set:
    no customer ever passes such a route. *)
Theorem gate_pass_sound (jwt_verify : string -> TokenError + Claims)
    (roles : option (list string)) (authorization : option string)
    (db : Store) (u : User) :
  gate jwt_verify roles authorization db = Pass u ->
  exists token claims,
    bearer authorization = Some token
    /\ jwt_verify token = inr claims
    /\ match u with
       | UCustomer c =>
           c_type claims = "customer" /\ In c (customers db)
           /\ Customer.id c = c_id claims
       | UStaff s =>
           c_type claims = "staff" /\ In s (staffs db)
           /\ Staff.id s = c_id claims
       end
    /\ ~ In (user_status u) [STATUS_deleted; STATUS_inactive; STATUS_blocked]
    /\ (forall rs, roles = Some rs ->
          exists s r, u = UStaff s /\ Staff.Role s = Some r
                      /\ In (Role.roleDescription r) rs).
Proof.
  rewrite gate_refines. unfold accessGate, resolve.
  destruct (bearer authorization) as [token|]; [|discriminate].
  destruct (jwt_verify token) as [e|claims] eqn:Hv; [discriminate|].
  destruct (lookup db claims) as [u0|] eqn:Hl; [|discriminate].
  destruct (Js.value_eqb (user_status u0) STATUS_deleted) eqn:Hd;
    [discriminate|].
  destruct (Js.value_eqb (user_status u0) STATUS_inactive) eqn:Hi;
    [discriminate|].
  destruct (Js.value_eqb (user_status u0) STATUS_blocked) eqn:Hb;
    [discriminate|].
  assert (Hst : ~ In (user_status u0)
                     [STATUS_deleted; STATUS_inactive; STATUS_blocked]).
  { intros [H | [H | [H | []]]]; rewrite <- H in *;
      cbn in Hd, Hi, Hb; congruence. }
  destruct roles as [rs|].
  - destruct (inRoleSet rs u0) eqn:Hr; [|discriminate].
    intros [= <-]. exists token, claims.
    repeat split; trivial; try exact (lookup_sound db claims u0 Hl).
    intros rs' [= <-]. unfold inRoleSet in Hr.
    destruct u0 as [c|s]; [discriminate|].
    destruct (Staff.Role s) as [r|] eqn:Hrole; [|discriminate].
    exists s, r. split; [reflexivity|]. split; [exact Hrole|].
    apply existsb_exists in Hr as (x & Hx & Heq).
    apply String.eqb_eq in Heq. rewrite Heq. exact Hx.
  - intros [= <-]. exists token, claims.
    repeat split; trivial; try exact (lookup_sound db claims u0 Hl).
    discriminate.
Qed.

(** The active staff of the sample store on the staff router. *)
Lemma gate_pass_sound_witness :
  exists token claims,
    bearer (Some "Bearer staff.1") = Some token
    /\ sampleVerify token = inr claims
    /\ (c_type claims = "staff" /\ In alice (staffs sampleDb)
        /\ Staff.id alice = c_id claims)
    /\ ~ In (user_status (UStaff alice))
            [STATUS_deleted; STATUS_inactive; STATUS_blocked]
    /\ (forall rs, staffRoles = Some rs ->
          exists s r, UStaff alice = UStaff s /\ Staff.Role s = Some r
                      /\ In (Role.roleDescription r) rs).
Proof.
  apply (gate_pass_sound sampleVerify staffRoles (Some "Bearer staff.1")
           sampleDb (UStaff alice)).
  reflexivity.
Defined.

(** X9. Of an [Authorization] header that starts with [Bearer ] the gate
    reads the text up to the next space and nothing else: whatever follows
    a second space changes no answer. *)
Theorem gate_ignores_header_tail
    (jwt_verify : string -> TokenError + Claims)
    (roles : option (list string)) (db : Store) (t rest : string) :
  gate jwt_verify roles (Some ("Bearer " ++ t ++ " " ++ rest)) db
  = gate jwt_verify roles (Some ("Bearer " ++ t)) db
  /\ authorize jwt_verify (Some ("Bearer " ++ t ++ " " ++ rest)) db
     = authorize jwt_verify (Some ("Bearer " ++ t)) db.
Proof.
  assert (H : bearer (Some ("Bearer " ++ t ++ " " ++ rest))
              = bearer (Some ("Bearer " ++ t))).
  { rewrite (bearer_prefixed (t ++ " " ++ rest)), (bearer_prefixed t).
    now rewrite upToSpace_app. }
  split; [now apply gate_header|].
  pose proof (gate_header jwt_verify None _ _ db H) as Hg.
  unfold gate in Hg.
  destruct (authorize jwt_verify (Some ("Bearer " ++ t ++ " " ++ rest)) db),
           (authorize jwt_verify (Some ("Bearer " ++ t)) db);
    cbn in Hg; congruence.
Qed.

(** ** Login: what a token means, and the token at the gate *)

(** X10. A login answers 200 only with a token, and only for a record of
    the store that answers to the supplied name (username, or for a
    customer also the e-mail address), is not deleted and whose stored
    hash verifies the supplied password; the token is signed for the type
    and the identifier of that record.  Both fields were supplied. *)
Theorem login_token_sound (jwt_sign : Claims -> string)
    (verifyHashedPassword : string -> string -> bool)
    (username password : option string) (db : Store) :
  (forall code body,
     customerLogin jwt_sign verifyHashedPassword username password db
     = Respond code body ->
     Js.truthy_field username = true /\ Js.truthy_field password = true
     /\ code = 200%Z
     /\ exists c,
          In c (customers db)
          /\ (Customer.username c = Js.to_string username
              \/ Customer.email c = Js.to_string username)
          /\ Customer.status c <> STATUS_deleted
          /\ verifyHashedPassword (Js.to_string password)
                                  (Customer.password c) = true
          /\ body = BToken (jwt_sign {| c_type := "customer";
                                        c_id := Customer.id c |}))
  /\ (forall code body,
        staffLogin jwt_sign verifyHashedPassword username password db
        = Respond code body ->
        Js.truthy_field username = true /\ Js.truthy_field password = true
        /\ code = 200%Z
        /\ exists s,
             In s (staffs db)
             /\ Staff.username s = Js.to_string username
             /\ Staff.status s <> STATUS_deleted
             /\ verifyHashedPassword (Js.to_string password)
                                     (Staff.password s) = true
             /\ body = BToken (jwt_sign {| c_type := "staff";
                                           c_id := Staff.id s |})).
Proof.
  split; intros code body.
  - unfold customerLogin.
    destruct (Js.truthy_field username); [|discriminate].
    destruct (Js.truthy_field password); [|discriminate]. cbn [negb orb].
    unfold findCustomerByLogin.
    destruct (find _ (customers db)) as [c|] eqn:Hf; [|discriminate].
    destruct (verifyHashedPassword _ _) eqn:Hv; [|discriminate].
    cbn [negb]. intros [= <- <-].
    apply find_some in Hf as [Hin Hp].
    apply andb_prop in Hp as [Hname Hnd].
    repeat split. exists c. repeat split; trivial.
    + apply orb_prop in Hname as [H | H]; apply String.eqb_eq in H; auto.
    + now apply notDeleted_neq.
  - unfold staffLogin.
    destruct (Js.truthy_field username); [|discriminate].
    destruct (Js.truthy_field password); [|discriminate]. cbn [negb orb].
    unfold findStaffByLogin.
    destruct (find _ (staffs db)) as [s|] eqn:Hf; [|discriminate].
    destruct (verifyHashedPassword _ _) eqn:Hv; [|discriminate].
    cbn [negb]. intros [= <- <-].
    apply find_some in Hf as [Hin Hp].
    apply andb_prop in Hp as [Hname Hnd].
    repeat split. exists s. repeat split; trivial.
    + now apply String.eqb_eq.
    + now apply notDeleted_neq.
Qed.

(** The login of the sample customer by her e-mail address. *)
Lemma login_token_sound_witness :
  exists c,
    In c (customers sampleDb)
    /\ (Customer.username c = "eve@bank.example"
        \/ Customer.email c = "eve@bank.example")
    /\ Customer.status c <> STATUS_deleted
    /\ sampleVerifyHash "Correct1!" (Customer.password c) = true
    /\ BToken "customer.1"
       = BToken (sampleSign {| c_type := "customer";
                               c_id := Customer.id c |}).
Proof.
  destruct (login_token_sound sampleSign sampleVerifyHash
              (Some "eve@bank.example") (Some "Correct1!") sampleDb)
    as [H _].
  destruct (H 200%Z (BToken "customer.1") eq_refl) as (_ & _ & _ & Hc).
  exact Hc.
Defined.

(** X11. The token of a successful staff login, presented as a Bearer
    header, brings the staff who logged in to the gate: the gate answers
    by the status and the role of that very record (403 for inactive or
    blocked, else the role check of the route), and never with a 401.
    This holds when verification decodes what was signed for the staff of
    the store, their tokens hold no space and staff identifiers are
    unique. *)
Theorem staff_login_then_gate (jwt_sign : Claims -> string)
    (jwt_verify : string -> TokenError + Claims)
    (verifyHashedPassword : string -> string -> bool)
    (username password : option string) (db : Store) (token : string)
    (roles : option (list string)) :
  (forall s, In s (staffs db) ->
     let claims := {| c_type := "staff"; c_id := Staff.id s |} in
     jwt_verify (jwt_sign claims) = inr claims
     /\ upToSpace (jwt_sign claims) = jwt_sign claims) ->
  NoDup (map Staff.id (staffs db)) ->
  staffLogin jwt_sign verifyHashedPassword username password db
  = Respond 200 (BToken token) ->
  exists s,
    In s (staffs db)
    /\ Staff.username s = Js.to_string username
    /\ gate jwt_verify roles (Some ("Bearer " ++ token)) db
       = if Js.value_eqb (Staff.status s) STATUS_inactive then
           NextErr errInactive
         else if Js.value_eqb (Staff.status s) STATUS_blocked then
           NextErr errBlocked
         else match roles with
              | Some rs => restrictTo rs (UStaff s)
              | None => Pass (UStaff s)
              end.
Proof.
  intros Hjwt Hnd Hlogin. unfold staffLogin in Hlogin.
  destruct (Js.truthy_field username); [|discriminate].
  destruct (Js.truthy_field password); [|discriminate].
  cbn [negb orb] in Hlogin. unfold findStaffByLogin in Hlogin.
  destruct (find _ (staffs db)) as [s|] eqn:Hf; [|discriminate].
  destruct (verifyHashedPassword _ _); [|discriminate].
  cbn [negb] in Hlogin. injection Hlogin as <-.
  apply find_some in Hf as [Hin Hp]. apply andb_prop in Hp as [Hname Hdel].
  apply String.eqb_eq in Hname.
  exists s. split; [exact Hin|]. split; [exact Hname|].
  destruct (Hjwt s Hin) as [Hrt Hns].
  rewrite gate_refines. unfold accessGate, signToken.
  rewrite bearer_prefixed, Hns, Hrt. unfold resolve, lookup.
  cbn [c_type c_id String.eqb Ascii.eqb Bool.eqb].
  rewrite (find_by_unique_id Staff.id (staffs db) s Hnd Hin).
  cbn [option_map user_status]. unfold notDeleted in Hdel.
  apply negb_true_iff in Hdel. rewrite Hdel.
  change (user_status (UStaff s)) with (Staff.status s).
  destruct (Js.value_eqb (Staff.status s) STATUS_inactive); [reflexivity|].
  destruct (Js.value_eqb (Staff.status s) STATUS_blocked); [reflexivity|].
  destruct roles as [rs|]; [|reflexivity].
  rewrite restrictTo_inRoleSet. now destruct (inRoleSet rs (UStaff s)).
Qed.

(** The active staff of the sample store logs in and passes the gate of
    the staff router. *)
Lemma staff_login_then_gate_witness :
  exists s,
    In s (staffs sampleDb)
    /\ Staff.username s = "alice"
    /\ gate sampleVerify staffRoles (Some "Bearer staff.1") sampleDb
       = if Js.value_eqb (Staff.status s) STATUS_inactive then
           NextErr errInactive
         else if Js.value_eqb (Staff.status s) STATUS_blocked then
           NextErr errBlocked
         else match staffRoles with
              | Some rs => restrictTo rs (UStaff s)
              | None => Pass (UStaff s)
              end.
Proof.
  apply (staff_login_then_gate sampleSign sampleVerify sampleVerifyHash
           (Some "alice") (Some "Staff1!pw") sampleDb "staff.1" staffRoles).
  - intros s Hs. cbn in Hs.
    destruct Hs as [<- | [<- | [<- | [<- | [<- | []]]]]]; split; reflexivity.
  - cbn. repeat constructor; cbn; intuition discriminate.
  - reflexivity.
Defined.

(** ** Status updates: what they leave alone and what follows them *)

Lemma find_none_all {A} (p : A -> bool) (l : list A) :
  (forall x, In x l -> p x = false) -> find p l = None.
Proof.
  intros H. destruct (find p l) as [x|] eqn:Hf; [|reflexivity].
  apply find_some in Hf as [Hin Hp]. rewrite (H x Hin) in Hp. discriminate Hp.
Qed.

Lemma find_map_invariant {A} (p : A -> bool) (g : A -> A) (l : list A) :
  (forall x, p (g x) = p x) ->
  find p (map g l) = option_map g (find p l).
Proof.
  intros H. induction l as [|a l IH]; [reflexivity|]. cbn.
  rewrite H. destruct (p a); [reflexivity | exact IH].
Qed.

Lemma map_map_invariant {A B} (f : A -> B) (g : A -> A) (l : list A) :
  (forall x, f (g x) = f x) -> map f (map g l) = map f l.
Proof.
  intros H. rewrite map_map. apply map_ext. exact H.
Qed.

Lemma unique_by_id {A} (key : A -> Z) (l : list A) (x y : A) :
  NoDup (map key l) -> In x l -> In y l -> key x = key y -> x = y.
Proof.
  intros Hnd Hx Hy Hk.
  pose proof (find_by_unique_id key l x Hnd Hx) as Fx.
  pose proof (find_by_unique_id key l y Hnd Hy) as Fy.
  rewrite Hk in Fx. congruence.
Qed.

Lemma save_staffs (staff : Staff.t) (db : Store) :
  staffs (save staff db) = map (saved staff) (staffs db).
Proof. reflexivity. Qed.

Lemma saved_fields (staff r : Staff.t) :
  Staff.id (saved staff r) = Staff.id r
  /\ Staff.username (saved staff r) = Staff.username r
  /\ Staff.password (saved staff r) = Staff.password r
  /\ Staff.name (saved staff r) = Staff.name r
  /\ Staff.Role (saved staff r) = Staff.Role r.
Proof.
  unfold saved. destruct (Z.eqb _ _); repeat split.
Qed.

Lemma saved_excludeAdmin (staff r : Staff.t) :
  excludeAdmin (saved staff r) = excludeAdmin r.
Proof.
  unfold excludeAdmin. now rewrite (proj2 (proj2 (proj2 (proj2
    (saved_fields staff r))))).
Qed.

(** The four ways in which [updateStaffStatus] ends. *)
Lemma updateStaffStatus_cases (valid_staff : Staff.t -> bool) (idStaff : Z)
    (status : option string) (db : Store) :
  let v := get STATUS (Js.to_string status) in
  let r := updateStaffStatus valid_staff idStaff status db in
  r = (NextErr errInvalidStatus, db)
  \/ r = (NextErr errCantFindStaff, db)
  \/ r = (Throws (StoreError "Staff.save"), db)
  \/ exists s0,
       In s0 (staffs db) /\ excludeAdmin s0 = true /\ Staff.id s0 = idStaff
       /\ Js.truthy v = true
       /\ find (fun s => excludeAdmin s && Z.eqb (Staff.id s) idStaff)
               (staffs db) = Some s0
       /\ valid_staff (Staff.set_status v s0) = true
       /\ r = (Respond 200 (BData (view (Staff.set_status v s0))),
               save (Staff.set_status v s0) db).
Proof.
  cbv zeta. unfold updateStaffStatus.
  destruct (Js.truthy _); [|now left]. cbn [negb].
  destruct (find _ (staffs db)) as [s0|] eqn:Hf; [|now right; left].
  destruct (valid_staff _) eqn:Hv; [|now right; right; left]. cbn [negb].
  right. right. right. exists s0.
  apply find_some in Hf as [Hin Hp]. apply andb_prop in Hp as [Hex Hid].
  apply Z.eqb_eq in Hid. now repeat split.
Qed.

Lemma saved_self (v : Js.value) (s0 : Staff.t) :
  saved (Staff.set_status v s0) s0 = Staff.set_status v s0.
Proof. unfold saved. cbn. now rewrite Z.eqb_refl. Qed.

Lemma saved_twice (staff a : Staff.t) :
  saved staff (saved staff a) = saved staff a.
Proof.
  unfold saved. destruct (Z.eqb (Staff.id a) (Staff.id staff)) eqn:E.
  - cbn [Staff.id Staff.set_status]. now rewrite E.
  - now rewrite E.
Qed.

(** X12. Whatever its outcome, a status update changes nothing but the
    status of the staff rows with the target identifier: customers and
    identities stay as they were, and so do the identifier, username,
    password hash, name and role of every staff row and every row with
    another identifier; when the response is not 200 the whole store is as
    it was. *)
Theorem updateStaffStatus_frame (valid_staff : Staff.t -> bool)
    (idStaff : Z) (status : option string) (db : Store) :
  let r := updateStaffStatus valid_staff idStaff status db in
  customers (snd r) = customers db
  /\ identities (snd r) = identities db
  /\ map Staff.id (staffs (snd r)) = map Staff.id (staffs db)
  /\ map Staff.username (staffs (snd r)) = map Staff.username (staffs db)
  /\ map Staff.password (staffs (snd r)) = map Staff.password (staffs db)
  /\ map Staff.name (staffs (snd r)) = map Staff.name (staffs db)
  /\ map Staff.Role (staffs (snd r)) = map Staff.Role (staffs db)
  /\ filter (fun s => negb (Z.eqb (Staff.id s) idStaff)) (staffs (snd r))
     = filter (fun s => negb (Z.eqb (Staff.id s) idStaff)) (staffs db)
  /\ ((forall body, fst r <> Respond 200 body) -> snd r = db).
Proof.
  cbv zeta.
  destruct (updateStaffStatus_cases valid_staff idStaff status db)
    as [-> | [-> | [-> | (s0 & Hin & Hex & Hid & _ & _ & _ & ->)]]];
    try (cbn [fst snd]; repeat split; reflexivity).
  cbn [fst snd]. rewrite save_staffs. cbn [save customers identities].
  set (s' := Staff.set_status _ s0).
  split; [reflexivity|]. split; [reflexivity|].
  split; [apply map_map_invariant; intros; apply saved_fields|].
  split; [apply map_map_invariant; intros; apply saved_fields|].
  split; [apply map_map_invariant; intros; apply saved_fields|].
  split; [apply map_map_invariant; intros; apply saved_fields|].
  split; [apply map_map_invariant; intros; apply saved_fields|].
  split.
  - clear Hin. induction (staffs db) as [|a l IH]; [reflexivity|].
    cbn [map filter]. rewrite (proj1 (saved_fields s' a)), IH.
    destruct (Z.eqb (Staff.id a) idStaff) eqn:E; [reflexivity|].
    cbn [negb]. f_equal. unfold saved. subst s'. cbn [Staff.id Staff.set_status].
    rewrite Hid, E. reflexivity.
  - intros H. exfalso. now apply (H (BData (view s'))).
Qed.

(** X13. Applying the same status update a second time changes nothing
    and gives the same response: the handler is idempotent. *)
Theorem updateStaffStatus_idempotent (valid_staff : Staff.t -> bool)
    (idStaff : Z) (status : option string) (db : Store) :
  let r := updateStaffStatus valid_staff idStaff status db in
  updateStaffStatus valid_staff idStaff status (snd r) = r.
Proof.
  cbv zeta.
  destruct (updateStaffStatus_cases valid_staff idStaff status db)
    as [H | [H | [H | (s0 & Hin & Hex & Hid & Ht & Hf & Hv & H)]]];
    rewrite H; cbn [snd]; try exact H.
  set (s' := Staff.set_status (get STATUS (Js.to_string status)) s0) in *.
  unfold updateStaffStatus. rewrite Ht. cbn [negb].
  rewrite save_staffs.
  rewrite (find_map_invariant _ (saved s')).
  2:{ intros x. now rewrite saved_excludeAdmin, (proj1 (saved_fields _ x)). }
  rewrite Hf. cbn [option_map]. subst s'. rewrite saved_self.
  change (Staff.set_status (get STATUS (Js.to_string status))
            (Staff.set_status (get STATUS (Js.to_string status)) s0))
    with (Staff.set_status (get STATUS (Js.to_string status)) s0).
  rewrite Hv. cbn [negb]. f_equal.
  unfold save. cbn [customers identities staffs]. f_equal.
  rewrite map_map. apply map_ext. intros a. apply saved_twice.
Qed.

(** After a status update answered with 200, the rows of the staff table
    with the target identifier, when identifiers are unique, are the one
    updated row. *)
Lemma updated_row (valid_staff : Staff.t -> bool) (idStaff : Z)
    (status : option string) (db db' : Store) (body : Body) :
  NoDup (map Staff.id (staffs db)) ->
  updateStaffStatus valid_staff idStaff status db = (Respond 200 body, db') ->
  exists s0,
    let s' := Staff.set_status (get STATUS (Js.to_string status)) s0 in
    In s0 (staffs db) /\ excludeAdmin s' = true /\ Staff.id s' = idStaff
    /\ body = BData (view s')
    /\ In s' (staffs db')
    /\ (forall y, In y (staffs db') -> Staff.id y = idStaff -> y = s').
Proof.
  intros Hnd H.
  destruct (updateStaffStatus_cases valid_staff idStaff status db)
    as [E | [E | [E | (s0 & Hin & Hex & Hid & _ & _ & _ & E)]]];
    cbv zeta in E; rewrite E in H; try discriminate H.
  injection H as <- <-. exists s0. cbv zeta.
  split; [exact Hin|]. split; [exact Hex|]. split; [exact Hid|].
  split; [reflexivity|]. rewrite save_staffs. split.
  - rewrite <- saved_self at 1. now apply in_map.
  - intros y Hy Hyid. apply in_map_iff in Hy as (y0 & <- & Hy0).
    rewrite (proj1 (saved_fields _ y0)) in Hyid.
    assert (y0 = s0).
    { apply (unique_by_id Staff.id (staffs db)); trivial. congruence. }
    subst y0. apply saved_self.
Qed.

(** X14. After a status update answered with 200, [getStaff] for the same
    identifier answers with the very row of that response, unless the new
    status is deleted, in which case it answers not-found; the earlier
    status of the row plays no part, so a deleted staff is brought back by
    an update to another status.  Staff identifiers are unique. *)
Theorem update_then_getStaff (valid_staff : Staff.t -> bool) (idStaff : Z)
    (status : option string) (db db' : Store) (body : Body) :
  NoDup (map Staff.id (staffs db)) ->
  updateStaffStatus valid_staff idStaff status db = (Respond 200 body, db') ->
  getStaff idStaff db'
  = if Js.value_eqb (get STATUS (Js.to_string status)) STATUS_deleted
    then NextErr errCantFindStaff
    else Respond 200 body.
Proof.
  intros Hnd H.
  destruct (updated_row valid_staff idStaff status db db' body Hnd H)
    as (s0 & _ & Hex & Hid & -> & Hin & Huniq).
  cbv zeta in *.
  set (s' := Staff.set_status (get STATUS (Js.to_string status)) s0) in *.
  unfold getStaff, findStaff.
  destruct (Js.value_eqb (get STATUS (Js.to_string status)) STATUS_deleted)
    eqn:Hd.
  - rewrite find_none_all; [reflexivity|].
    intros y Hy. destruct (Z.eqb (Staff.id y) idStaff) eqn:E.
    + apply Z.eqb_eq in E. rewrite (Huniq y Hy E).
      unfold notDeleted. subst s'. cbn [Staff.status Staff.set_status].
      rewrite Hd. cbn. now rewrite andb_false_r.
    + cbn. now rewrite andb_false_r.
  - rewrite (find_unique _ (staffs db') s'); [reflexivity | exact Hin | |].
    + rewrite Hex, Hid, Z.eqb_refl. unfold notDeleted. subst s'.
      cbn [Staff.status Staff.set_status]. now rewrite Hd.
    + intros y Hy Hp. apply andb_prop in Hp as [_ Hp].
      apply andb_prop in Hp as [Hp _]. apply Z.eqb_eq in Hp.
      now apply Huniq.
Qed.

(** The deleted staff of the sample store, set back to active, is found
    again. *)
Lemma update_then_getStaff_witness :
  getStaff 4 (snd (updateStaffStatus stringStatus 4 (Some "active") sampleDb))
  = Respond 200 (BData (view (Staff.set_status STATUS_active carol))).
Proof.
  apply (update_then_getStaff stringStatus 4 (Some "active") sampleDb
           (snd (updateStaffStatus stringStatus 4 (Some "active") sampleDb))
           (BData (view (Staff.set_status STATUS_active carol)))).
  - cbn. repeat constructor; cbn; intuition discriminate.
  - reflexivity.
Defined.

(** X15. After a status update answered with 200, a token of the updated
    staff is treated at the gate by the new status at once: not found
    (the 401 of a missing principal) when it was set to deleted, the 403
    of inactive or blocked when it was set to one of these, and otherwise
    the role check of the route on the updated record.  Staff identifiers
    are unique and the token verifies to the staff's claims. *)
Theorem update_then_gate (valid_staff : Staff.t -> bool)
    (jwt_verify : string -> TokenError + Claims) (idStaff : Z)
    (status : option string) (db db' : Store) (body : Body)
    (authorization : option string) (token : string)
    (roles : option (list string)) :
  NoDup (map Staff.id (staffs db)) ->
  updateStaffStatus valid_staff idStaff status db = (Respond 200 body, db') ->
  bearer authorization = Some token ->
  jwt_verify token = inr {| c_type := "staff"; c_id := idStaff |} ->
  let v := get STATUS (Js.to_string status) in
  exists s',
    body = BData (view s') /\ Staff.status s' = v
    /\ gate jwt_verify roles authorization db'
       = if Js.value_eqb v STATUS_deleted then NextErr errNoLongerExists
         else if Js.value_eqb v STATUS_inactive then NextErr errInactive
         else if Js.value_eqb v STATUS_blocked then NextErr errBlocked
         else match roles with
              | Some rs => restrictTo rs (UStaff s')
              | None => Pass (UStaff s')
              end.
Proof.
  intros Hnd H Hb Hv v.
  destruct (updated_row valid_staff idStaff status db db' body Hnd H)
    as (s0 & _ & Hex & Hid & -> & Hin & Huniq).
  cbv zeta in *.
  set (s' := Staff.set_status (get STATUS (Js.to_string status)) s0) in *.
  exists s'. split; [reflexivity|]. split; [reflexivity|].
  rewrite gate_refines. unfold accessGate. rewrite Hb, Hv.
  unfold resolve, lookup. cbn [c_type c_id String.eqb Ascii.eqb Bool.eqb].
  rewrite (find_unique _ (staffs db') s' Hin).
  2:{ rewrite Hid. apply Z.eqb_refl. }
  2:{ intros y Hy Hp. apply Z.eqb_eq in Hp. now apply Huniq. }
  cbn [option_map]. change (user_status (UStaff s')) with v.
  destruct (Js.value_eqb v STATUS_deleted); [reflexivity|].
  change (user_status (UStaff s')) with v.
  destruct (Js.value_eqb v STATUS_inactive); [reflexivity|].
  destruct (Js.value_eqb v STATUS_blocked); [reflexivity|].
  destruct roles as [rs|]; [|reflexivity].
  rewrite restrictTo_inRoleSet. now destruct (inRoleSet rs (UStaff s')).
Qed.

(** The active staff of the sample store is set to deleted; its token is
    then answered with the 401 of a missing principal. *)
Lemma update_then_gate_witness :
  gate sampleVerify staffRoles (Some "Bearer staff.1")
       (snd (updateStaffStatus stringStatus 1 (Some "deleted") sampleDb))
  = NextErr errNoLongerExists.
Proof.
  destruct (update_then_gate stringStatus sampleVerify 1 (Some "deleted")
              sampleDb
              (snd (updateStaffStatus stringStatus 1 (Some "deleted")
                                      sampleDb))
              (BData (view (Staff.set_status STATUS_deleted alice)))
              (Some "Bearer staff.1") "staff.1" staffRoles)
    as (s' & _ & _ & Hg).
  - cbn. repeat constructor; cbn; intuition discriminate.
  - reflexivity.
  - reflexivity.
  - reflexivity.
  - exact Hg.
Defined.

(** ** The listing: bounds and content *)

Section ListingMore.

Variable sql_like : string -> string -> bool.
Variable order_by : string -> string -> list Staff.t -> list Staff.t.

(** The rows that a listing query matches before it is cut to a page, in
    the order of the query: they do not depend on [page] and [limit]. *)
Lemma getAllStaffs_window (q : ListQuery) (db : Store) :
  exists matching ordered,
    (forall s, In s matching ->
               In s (staffs db) /\ excludeAdmin s = true
               /\ notDeleted (Staff.status s) = true)
    /\ ordered
       = order_by (one_of_or ["username"; "name"] (sortBy q) "updatedAt")
                  (one_of_or ["asc"; "desc"] (sortType q) "asc") matching
    /\ forall page limit,
         getAllStaffs sql_like order_by
                      {| sortBy := sortBy q; sortType := sortType q;
                         page := page; limit := limit;
                         q_username := q_username q; q_name := q_name q |}
                      db
         = Respond 200
             (BItems (List.length matching)
                (map view
                   (firstn (Z.to_nat (or_default limit 10))
                      (skipn (Z.to_nat ((or_default page 1 - 1)
                                        * or_default limit 10))
                             ordered)))).
Proof.
  eexists. eexists. split; [|split; [reflexivity|]].
  2:{ intros pg lm. unfold getAllStaffs.
      cbn [sortBy sortType page limit q_username q_name]. reflexivity. }
  intros s Hs. apply filter_In in Hs as [Hin Hp].
  apply andb_prop in Hp as [Hex Hp]. apply andb_prop in Hp as [Hnd _].
  auto.
Qed.

End ListingMore.

(** X16. A listing never holds more items than its limit (10 when the
    limit is missing or not positive); every item is a row of the store
    that is not deleted and whose role is not admin; and the total it
    reports is the same for every page and limit of the same query.  The
    store engine's ordering returns rows of its input. *)
Theorem getAllStaffs_items
    (sql_like : string -> string -> bool)
    (order_by : string -> string -> list Staff.t -> list Staff.t)
    (q : ListQuery) (db : Store) :
  (forall a b l x, In x (order_by a b l) -> In x l) ->
  let r := getAllStaffs sql_like order_by q db in
  (List.length (itemsOf r) <= Z.to_nat (or_default (limit q) 10))%nat
  /\ (forall v, In v (itemsOf r) ->
        exists s, In s (staffs db) /\ v = view s
                  /\ isAdmin s = false
                  /\ Staff.status s <> STATUS_deleted)
  /\ (forall p l,
        totalOf (getAllStaffs sql_like order_by (withWindow p l q) db)
        = totalOf r).
Proof.
  intros Hord.
  destruct (getAllStaffs_window sql_like order_by q db)
    as (matching & ordered & Hm & Ho & Hw).
  cbv zeta.
  assert (Hq : getAllStaffs sql_like order_by q db
               = Respond 200
                   (BItems (List.length matching)
                      (map view
                         (firstn (Z.to_nat (or_default (limit q) 10))
                            (skipn (Z.to_nat ((or_default (page q) 1 - 1)
                                              * or_default (limit q) 10))
                                   ordered))))).
  { rewrite <- (Hw (page q) (limit q)). now destruct q. }
  rewrite Hq. cbn [itemsOf totalOf]. split; [|split].
  - rewrite length_map. apply firstn_le_length.
  - intros v Hv. apply in_map_iff in Hv as (s & <- & Hs).
    apply In_firstn, In_skipn in Hs. rewrite Ho in Hs.
    apply Hord, Hm in Hs as (Hin & Hex & Hnd).
    exists s. repeat split; trivial.
    + now apply excludeAdmin_isAdmin.
    + now apply notDeleted_neq.
  - intros p l. unfold withWindow. now rewrite (Hw (Some p) (Some l)).
Qed.

(** The listing of the sample store, in the order of the table. *)
Lemma getAllStaffs_items_witness :
  (List.length
     (itemsOf (getAllStaffs (fun _ _ => true) (fun _ _ l => l)
                 {| sortBy := None; sortType := None; page := None;
                    limit := Some 2%Z; q_username := None;
                    q_name := None |}
                 sampleDb))
   <= 2)%nat.
Proof.
  apply (getAllStaffs_items (fun _ _ => true) (fun _ _ l => l)
           {| sortBy := None; sortType := None; page := None;
              limit := Some 2%Z; q_username := None; q_name := None |}
           sampleDb).
  intros a b l x H. exact H.
Defined.

(** ** Creation of staff *)

Lemma findStaffRole_sound (roles : list Role.t) (r : Role.t) :
  findStaffRole roles = Some r ->
  In r roles /\ Role.roleDescription r = ROLE_staff.
Proof.
  unfold findStaffRole. intros H. apply find_some in H as [Hin Hd].
  apply String.eqb_eq in Hd. now split.
Qed.

(** The three ways in which [createStaff] ends. *)
Lemma createStaff_cases (createHashedPassword : string -> string)
    (new_staff_id : Store -> Z) (accepts_staff : Store -> Staff.t -> bool)
    (roles : list Role.t) (username password name : string) (db : Store) :
  let r := createStaff createHashedPassword new_staff_id accepts_staff
             roles username password name db in
  (findStaffRole roles = None /\ r = (NextErr errNoStaffRole, db))
  \/ (findStaffRole roles <> None
      /\ r = (Throws (StoreError "Staff.create"), db))
  \/ exists role,
       let s := staffRow createHashedPassword new_staff_id db role
                  username password name in
       findStaffRole roles = Some role
       /\ r = (Respond 201 (BData (newStaffView s)), add_staff s db).
Proof.
  cbv zeta. unfold createStaff.
  destruct (findStaffRole roles) as [role|]; [|now left].
  destruct (accepts_staff _ _); [|right; left; split; [discriminate|reflexivity]].
  cbn [negb]. right. right. now exists role.
Qed.

(** X18. Whatever its outcome, [createStaff] leaves the customers, the
    identities and every existing staff row as they were and adds at most
    one staff row; a row it adds carries a role of the roles table whose
    description is staff, never admin, the hash of the supplied password
    and the supplied username; when the roles table holds no staff role
    the answer is the 500 error and nothing is added; the response is 201
    exactly when a row was added. *)
Theorem createStaff_frame (createHashedPassword : string -> string)
    (new_staff_id : Store -> Z) (accepts_staff : Store -> Staff.t -> bool)
    (roles : list Role.t) (username password name : string) (db : Store) :
  let r := createStaff createHashedPassword new_staff_id accepts_staff
             roles username password name db in
  exists added,
    staffs (snd r) = (staffs db ++ added)%list
    /\ (List.length added <= 1)%nat
    /\ customers (snd r) = customers db
    /\ identities (snd r) = identities db
    /\ (forall s, In s added ->
          exists role,
            Staff.Role s = Some role /\ In role roles
            /\ Role.roleDescription role = ROLE_staff
            /\ isAdmin s = false
            /\ Staff.username s = username
            /\ Staff.password s = createHashedPassword password)
    /\ (findStaffRole roles = None -> r = (NextErr errNoStaffRole, db))
    /\ ((exists body, fst r = Respond 201 body) <-> List.length added = 1%nat).
Proof.
  cbv zeta.
  destruct (createStaff_cases createHashedPassword new_staff_id accepts_staff
              roles username password name db)
    as [[Hn ->] | [[Hs ->] | (role & Hr & ->)]]; cbv zeta.
  - exists []. cbn. rewrite app_nil_r.
    repeat split; try lia; try tauto; try discriminate.
    intros (b & H). discriminate H.
  - exists []. cbn. rewrite app_nil_r.
    repeat split; try lia; try tauto; try discriminate.
    intros (b & H). discriminate H.
  - eexists [_]. cbn [fst snd add_staff staffs customers identities].
    destruct (findStaffRole_sound roles role Hr) as [Hin Hd].
    repeat split; cbn; try lia.
    + intros s [<- | []]. exists role. cbn.
      repeat split; trivial. unfold isAdmin. cbn. now rewrite Hd.
    + intros Hn. congruence.
    + eexists. reflexivity.
Qed.

(** X19. After a [createStaff] answered with 201, the new staff is found
    by [getStaff] under the identifier of the response, with the staff
    role joined, and can log in with the supplied username and password,
    getting a token for that identifier.  The store assigned an identifier
    not in use; for the login, hashing and verification agree, both fields
    are non-empty and no earlier staff that is not deleted has the
    username. *)
Theorem createStaff_then_use (createHashedPassword : string -> string)
    (new_staff_id : Store -> Z) (accepts_staff : Store -> Staff.t -> bool)
    (roles : list Role.t) (username password name : string)
    (db db' : Store) (body : Body) :
  createStaff createHashedPassword new_staff_id accepts_staff
              roles username password name db
  = (Respond 201 body, db') ->
  ~ In (new_staff_id db) (map Staff.id (staffs db)) ->
  exists s,
    In s (staffs db') /\ Staff.id s = new_staff_id db
    /\ body = BData (newStaffView s)
    /\ getStaff (new_staff_id db) db' = Respond 200 (BData (view s))
    /\ forall jwt_sign verifyHashedPassword,
         (forall p, verifyHashedPassword p (createHashedPassword p) = true) ->
         username <> "" -> password <> "" ->
         findStaffByLogin db username = None ->
         staffLogin jwt_sign verifyHashedPassword (Some username)
                    (Some password) db'
         = Respond 200 (BToken (signToken jwt_sign "staff"
                                          (new_staff_id db))).
Proof.
  intros H Hfresh.
  destruct (createStaff_cases createHashedPassword new_staff_id accepts_staff
              roles username password name db)
    as [[_ E] | [[_ E] | (role & Hr & E)]]; cbv zeta in E; rewrite E in H;
    try discriminate H.
  injection H as <- <-.
  destruct (findStaffRole_sound roles role Hr) as [_ Hd].
  set (s := staffRow createHashedPassword new_staff_id db role
                     username password name).
  exists s. cbn [add_staff staffs].
  split; [apply in_or_app; right; now left|].
  split; [reflexivity|]. split; [reflexivity|]. split.
  - unfold getStaff, findStaff. cbn [add_staff staffs].
    rewrite (find_app_last _ (staffs db) s); [reflexivity| |].
    + apply find_none_all. intros x Hx.
      destruct (Z.eqb (Staff.id x) (new_staff_id db)) eqn:Ex.
      * apply Z.eqb_eq in Ex. exfalso. apply Hfresh. rewrite <- Ex.
        now apply in_map.
      * cbn. now rewrite andb_false_r.
    + subst s. unfold excludeAdmin. cbn. rewrite Hd, Z.eqb_refl. reflexivity.
  - intros jwt_sign verify Hhash Hu Hp Hfree.
    rewrite staffLogin_cases.
    2:{ cbn. now destruct username. }
    2:{ cbn. now destruct password. }
    cbn [Js.to_string]. unfold findStaffByLogin in *.
    cbn [add_staff staffs].
    rewrite (find_app_last _ (staffs db) s Hfree).
    + subst s. cbn. now rewrite Hhash.
    + subst s. cbn. now rewrite String.eqb_refl.
Qed.

(** A new staff of the sample store, with the roles table of the
    sample. *)
Lemma createStaff_then_use_witness :
  let created := createStaff sampleHash sampleNewStaffId acceptAll
                   [roleAdmin; roleStaff] "frank" "Fr4nk!pass" "Frank"
                   sampleDb in
  exists s,
    In s (staffs (snd created)) /\ Staff.id s = 6%Z
    /\ getStaff 6 (snd created) = Respond 200 (BData (view s))
    /\ staffLogin sampleSign sampleVerifyHash (Some "frank")
                  (Some "Fr4nk!pass") (snd created)
       = Respond 200 (BToken (signToken sampleSign "staff" 6)).
Proof.
  cbv zeta.
  destruct (createStaff_then_use sampleHash sampleNewStaffId acceptAll
              [roleAdmin; roleStaff] "frank" "Fr4nk!pass" "Frank" sampleDb
              (snd (createStaff sampleHash sampleNewStaffId acceptAll
                      [roleAdmin; roleStaff] "frank" "Fr4nk!pass" "Frank"
                      sampleDb))
              (BData (newStaffView
                        (staffRow sampleHash sampleNewStaffId sampleDb
                                  roleStaff "frank" "Fr4nk!pass" "Frank"))))
    as (s & Hin & Hid & _ & Hget & Hlogin).
  - reflexivity.
  - cbn. intuition discriminate.
  - exists s. split; [exact Hin|]. split; [exact Hid|].
    split; [exact Hget|].
    apply (Hlogin sampleSign sampleVerifyHash).
    + intros p. unfold sampleVerifyHash. apply String.eqb_refl.
    + discriminate.
    + discriminate.
    + reflexivity.
Defined.

(** ** The staff router *)

Lemma split_after_prefix {A} (P L before after : list A) (h : A) :
  ~ In h P ->
  (before ++ h :: after = P ++ L)%list ->
  exists L1, before = (P ++ L1)%list.
Proof.
  revert before. induction P as [|x P IH]; intros before Hn H.
  - now exists before.
  - destruct before as [|b before]; cbn in H.
    + injection H as -> _. exfalso. apply Hn. now left.
    + injection H as -> H.
      destruct (IH before) as [L1 ->]; [|exact H|].
      * intros Hin. apply Hn. now right.
      * now exists L1.
Qed.

Section RouterFacts.

Variable pathMatches : string -> string -> bool.

(** A function on the stack of a request was registered by a layer that
    takes the request. *)
Lemma stack_sound (layers : list Layer) (m : Method) (url : string)
    (h : Handler) :
  In h (stack pathMatches layers m url) ->
  exists layer,
    In layer layers
    /\ match layer with
       | Route m' path h' =>
           h' = h /\ handles m' m = true /\ pathMatches path url = true
       | Use hs => In h hs
       end.
Proof.
  induction layers as [|layer layers IH]; cbn [stack In]; [contradiction|].
  destruct layer as [m' path h'|hs].
  - destruct (handles m' m && pathMatches path url) eqn:E.
    + intros [<- | H].
      * exists (Route m' path h'). apply andb_prop in E. split; [now left|].
        tauto.
      * destruct (IH H) as (layer & Hin & Hl). exists layer. auto.
    + intros H. destruct (IH H) as (layer & Hin & Hl). exists layer. auto.
  - intros H. apply in_app_or in H as [H | H].
    + exists (Use hs). split; [now left | exact H].
    + destruct (IH H) as (layer & Hin & Hl). exists layer. auto.
Qed.

End RouterFacts.

(** X21. Whatever the framework's path matching, on the staff router every
    controller other than [staffLogin] stands, in the stack of a request,
    behind [authorize] and [restrictTo(ROLE.staff, ROLE.admin)], in this
    order; these two are on the stack of every request; and [staffLogin]
    is on the stack only of a POST that matches [/login], and then
    first. *)
Theorem staffRouter_gated (pathMatches : string -> string -> bool)
    (m : Method) (url : string) :
  let st := stack pathMatches staffRouter m url in
  let public :=
    if method_eqb m POST && pathMatches "/login" url
    then [h_staffLogin] else [] in
  (forall before h after,
     st = (before ++ h :: after)%list ->
     isController h = true -> h <> h_staffLogin ->
     exists mid,
       before
       = (public ++ h_authorize :: h_restrictTo [ROLE_staff; ROLE_admin]
                 :: mid)%list)
  /\ (exists rest,
        st = (public ++ h_authorize
                     :: h_restrictTo [ROLE_staff; ROLE_admin] :: rest)%list)
  /\ (In h_staffLogin st ->
      m = POST /\ pathMatches "/login" url = true
      /\ hd_error st = Some h_staffLogin).
Proof.
  cbv zeta. unfold staffRouter. cbn [stack app].
  match goal with
  | |- context [h_restrictTo _ :: ?l] => set (rest := l)
  end.
  replace (handles POST m) with (method_eqb m POST) by now destruct m.
  set (public := if method_eqb m POST && pathMatches "/login" url
                 then [h_staffLogin] else []).
  assert (Hst : (if method_eqb m POST && pathMatches "/login" url
                 then h_staffLogin :: h_authorize
                      :: h_restrictTo [ROLE_staff; ROLE_admin] :: rest
                 else h_authorize
                      :: h_restrictTo [ROLE_staff; ROLE_admin] :: rest)
                = ((public ++ [h_authorize;
                               h_restrictTo [ROLE_staff; ROLE_admin]])
                   ++ rest)%list).
  { subst public. now destruct (method_eqb m POST && pathMatches "/login" url). }
  rewrite Hst. split; [|split].
  - intros before h after H Hc Hn. symmetry in H.
    assert (Hout : ~ In h (public ++ [h_authorize;
                                      h_restrictTo [ROLE_staff; ROLE_admin]])).
    { intros Hin. apply in_app_or in Hin as [Hin | Hin].
      - subst public.
        destruct (method_eqb m POST && pathMatches "/login" url).
        + destruct Hin as [Hin | []]. apply Hn. now symmetry.
        + contradiction.
      - destruct Hin as [<- | [<- | []]]; discriminate Hc. }
    destruct (split_after_prefix _ _ _ _ h Hout H) as [L1 ->].
    exists L1. now rewrite <- app_assoc.
  - exists rest. now rewrite <- app_assoc.
  - intros Hin.
    assert (Hrest : ~ In h_staffLogin rest).
    { intros Hr. subst rest.
      change (In h_staffLogin
                (stack pathMatches
                   [Route GET "/me" h_getInfo;
                    Route PUT "/me" h_updateInfo;
                    Route PUT "/updatePassword" h_updatePassword;
                    Route GET "/customers" h_getAllCustomers;
                    Route GET "/customers/identities" h_getAllIdentities;
                    Route GET "/customers/identities/:idCustomer"
                          h_getIdentity;
                    Route GET "/customers/accounts" h_getCustomerAccounts;
                    Route GET "/customers/transactions"
                          h_getCustomerTransactions;
                    Route POST "/customers/status" h_updateCustomerStatus;
                    Route POST "/customers/approve" h_approveCustomer;
                    Route GET "/customers/:id" h_getCustomer]
                   m url)) in Hr.
      apply stack_sound in Hr as (layer & Hl & Hh).
      cbn in Hl.
      repeat (destruct Hl as [<- | Hl];
              [destruct Hh as [Hh _]; discriminate Hh|]).
      contradiction. }
    apply in_app_or in Hin as [Hin | Hin]; [|contradiction].
    apply in_app_or in Hin as [Hin | Hin].
    + subst public.
      destruct (method_eqb m POST && pathMatches "/login" url) eqn:E;
        [|contradiction].
      apply andb_prop in E as [Em Ep].
      split; [now destruct m|]. split; [exact Ep | reflexivity].
    + cbn in Hin. destruct Hin as [H | [H | []]]; discriminate H.
Qed.

(** ** The client's thunks *)

(** X22. [fetchUser] never rejects: it dispatches the request action
    first, calls the API, and dispatches the success action exactly when
    the call succeeds, carrying the data of the response; when the call
    fails it only shows the formatted error.  [updateProfile] dispatches
    its request action first and rejects exactly when the call fails,
    having dispatched no success action; when the call succeeds it
    dispatches the success action with the submitted body. *)
Theorem client_thunks
    (fetchApi : string -> string -> option string
                -> Client.settled Client.Response)
    (getErrorMessage : string -> string) (type body : string) :
  let url := "/" ++ type ++ "/me" in
  let fu := Client.fetchUser fetchApi getErrorMessage type in
  let up := Client.updateProfile fetchApi type body in
  snd fu = Client.Resolved tt
  /\ firstn 2 (fst fu)
     = [Client.Dispatched Client.FETCH_USER_REQUEST;
        Client.Requested url "GET" None]
  /\ (forall user,
        In (Client.Dispatched (Client.FETCH_USER_SUCCESS user)) (fst fu)
        <-> exists r, fetchApi url "GET" None = Client.Resolved r
                      /\ Client.data r = user)
  /\ (forall text,
        In (Client.MessageError text) (fst fu)
        <-> exists e, fetchApi url "GET" None = Client.Rejected e
                      /\ getErrorMessage e = text)
  /\ firstn 2 (fst up)
     = [Client.Dispatched Client.UPDATE_USER_REQUEST;
        Client.Requested url "PUT" (Some body)]
  /\ (forall e, snd up = Client.Rejected e
                <-> fetchApi url "PUT" (Some body) = Client.Rejected e)
  /\ (forall x,
        In (Client.Dispatched (Client.UPDATE_USER_SUCCESS x)) (fst up)
        <-> (exists r, fetchApi url "PUT" (Some body) = Client.Resolved r)
            /\ x = body).
Proof.
  cbv zeta. unfold Client.fetchUser, Client.updateProfile.
  destruct (fetchApi ("/" ++ type ++ "/me") "GET" None) as [r|e];
    destruct (fetchApi ("/" ++ type ++ "/me") "PUT" (Some body)) as [r'|e'];
    cbn [fst snd firstn];
    (split; [reflexivity|]); (split; [reflexivity|]);
    (split; [intros user; split;
             [intros [H | [H | [H | []]]]; try discriminate H;
              injection H as <-; eexists; split; reflexivity
             |intros (r0 & H & <-); try discriminate H;
              injection H as <-; cbn; tauto]|]);
    (split; [intros text; split;
             [intros [H | [H | [H | []]]]; try discriminate H;
              injection H as <-; eexists; split; reflexivity
             |intros (e0 & H & <-); try discriminate H;
              injection H as <-; cbn; tauto]|]);
    (split; [reflexivity|]);
    (split; [intros e0; split; intros H; try discriminate H; congruence|]);
    intros x; split.
  all: try (intros [H | [H | [H | []]]]; try discriminate H;
            injection H as <-; split; [eexists; reflexivity | reflexivity]).
  all: try (intros [(r0 & H) ->]; try discriminate H; cbn; tauto).
  all: try (intros [H | [H | []]]; discriminate H).
Qed.
